(** * iTrader: the naive portfolio of [core/portfolio.py]

    A shallow embedding of [NaivePortfolio] and the properties of its
    accounting: positions, holdings, bar snapshots, order sizing and the
    reporting tables.

    Numbers.  A Python [int] is a [Z].  A Python [float] is idealised as an
    exact rational ([Qc], canonical fractions with Leibniz equality), and a
    missing value (pandas' NaN) is [None].  Rounding error, infinities and
    the order in which a float sum is taken are outside this model.

    Dictionaries are [gmap]s with the keys of the source, so that a symbol
    that happens to be called ["cash"] or ["total"] shares its entry with
    the ledger field, as it does in Python.  A timestamp is stored as a
    number (its POSIX time). *)

From Stdlib Require Import ZArith QArith Qcanon Qround List String Lia.
From stdpp Require Import base gmap strings list.

Open Scope Z_scope.
Open Scope string_scope.

(** ** Numbers *)

(** [float(z)]: an integer used where a float is expected. *)
Definition Qz (z : Z) : Qc := Q2Qc (inject_Z z).

(** The rational [n / d], for literals such as [0.5]. *)
Definition Qfrac (n : Z) (d : positive) : Qc := Q2Qc (Qmake n d).

Definition Qc_ltb (x y : Qc) : bool :=
  match (x ?= y)%Qc with Lt => true | _ => false end.

(** [round(x, ndigits)]: Python rounds to the nearest multiple of
    [10^-ndigits], a tie going to the even neighbour. *)
Definition round (x : Qc) (ndigits : nat) : Qc :=
  let scale := Qz (10 ^ Z.of_nat ndigits) in
  let y := (x * scale)%Qc in
  let lo := Qfloor y in
  let rest := (y - Qz lo)%Qc in
  let n :=
    match (rest ?= Qfrac 1 2)%Qc with
    | Lt => lo
    | Gt => lo + 1
    | Eq => if Z.even lo then lo else lo + 1
    end in
  (Qz n / scale)%Qc.

(** ** Exceptions and results *)

Inductive exn : Type :=
| KeyError (key : string)
| IndexError
| AttributeError (name : string)
| ZeroDivisionError.

Inductive result (A : Type) : Type :=
| Ok (a : A)
| Raise (e : exn).
Arguments Ok {A} a.
Arguments Raise {A} e.

(** [d[k]] read from a dictionary. *)
Definition getitem {V : Type} (d : gmap string V) (k : string) : result V :=
  match d !! k with
  | Some v => Ok v
  | None => Raise (KeyError k)
  end.

(** [dict(pairs)]: a later pair for the same key replaces an earlier one. *)
Definition dict {V : Type} (pairs : list (string * V)) : gmap string V :=
  fold_left (λ d kv, <[kv.1 := kv.2]> d) pairs ∅.

(** ** Events ([core/event.py]) *)

(** Modelled from the spec: the event classes are declared in
    [core/event.py], which is not part of the sources at hand.  A signal
    carries [type], [symbol], [signal_type] and [quantity]. *)
Module SignalEvent.
Record t : Type := mk {
  type : string;
  symbol : string;
  signal_type : string;
  quantity : Z
}.
End SignalEvent.

(** What [portfolio.py] imports and does not define: the order class with
    its constructor [OrderEvent(signal, quantity, direction)], the
    attributes [order_id] and [profit] read from an order, and the two
    functions of [core/performance.py]. *)
Class Collaborators : Type := {
  Order : Type;
  OrderEvent : SignalEvent.t → Z → string → Order;
  order_id : Order → Z;
  profit : Order → Qc;
  create_sharpe_ratio : list (option Qc) → Z → Qc;
  create_drawdowns : list (option Qc) → list (option Qc) * Qc * Z
}.

(** Modelled from the spec: a fill carries [type], [symbol], [direction],
    [quantity], [commission], the order it executes and its own realised
    price. *)
Module FillEvent.
Section Fill.
Context {C : Collaborators}.
Record t : Type := mk {
  type : string;
  symbol : string;
  direction : string;
  quantity : Z;
  commission : Qc;
  fill_price : Qc;
  order : Order
}.
End Fill.
End FillEvent.

(** [vars(event)] of a fill after [fill['order'] = event.order.order_id]. *)
Module FillRecord.
Record t : Type := mk {
  type : string;
  symbol : string;
  direction : string;
  quantity : Z;
  commission : Qc;
  fill_price : Qc;
  order : Z
}.
End FillRecord.

(** The market data handler [bars], read through its two accessors. *)
Module DataHandler.
Record t : Type := mk {
  symbol_list : list string;
  get_latest_bar_datetime : string → Z;
  get_latest_bar_value : string → string → Qc
}.
End DataHandler.

Section Portfolio.
Context {C : Collaborators}.

(** Whatever is handed to [update_signal] or [update_fill]: the methods
    look at [event.type] first and at the other attributes afterwards. *)
Inductive Event : Type :=
| SignalEv (s : SignalEvent.t)
| FillEv (f : FillEvent.t)
| OtherEv (type : string).

Definition event_type (event : Event) : string :=
  match event with
  | SignalEv s => SignalEvent.type s
  | FillEv f => FillEvent.type f
  | OtherEv type => type
  end.

(** The table built by [create_equity_curve_dataframe]. *)
Record EquityCurve : Type := mkEquityCurve {
  ec_index : list (option Qc);
  ec_rows : list (gmap string Qc);
  ec_returns : list (option Qc);
  ec_equity_curve : list (option Qc);
  ec_drawdown : option (list (option Qc))
}.

(** The attributes of a [NaivePortfolio]. [self.bars] is a reference to
    the data handler, whose latest bar moves as the feed advances: the
    methods that read it take its state at the time of the call. *)
Record NaivePortfolio : Type := mkNaivePortfolio {
  events : list (option Order);
  symbol_list : list string;
  start_date : Z;
  initial_capital : Qc;
  all_positions : list (gmap string Z);
  current_positions : gmap string Z;
  all_holdings : list (gmap string Qc);
  current_holdings : gmap string Qc;
  all_orders : gmap Z Order;
  all_fills : list FillRecord.t;
  equity_curve : option EquityCurve;
  order_history : option (list Order)
}.

Definition set_events (v : list (option Order)) (p : NaivePortfolio) :=
  mkNaivePortfolio v (symbol_list p) (start_date p) (initial_capital p)
    (all_positions p) (current_positions p) (all_holdings p)
    (current_holdings p) (all_orders p) (all_fills p) (equity_curve p)
    (order_history p).

Definition set_all_positions (v : list (gmap string Z)) (p : NaivePortfolio) :=
  mkNaivePortfolio (events p) (symbol_list p) (start_date p) (initial_capital p)
    v (current_positions p) (all_holdings p)
    (current_holdings p) (all_orders p) (all_fills p) (equity_curve p)
    (order_history p).

Definition set_current_positions (v : gmap string Z) (p : NaivePortfolio) :=
  mkNaivePortfolio (events p) (symbol_list p) (start_date p) (initial_capital p)
    (all_positions p) v (all_holdings p)
    (current_holdings p) (all_orders p) (all_fills p) (equity_curve p)
    (order_history p).

Definition set_all_holdings (v : list (gmap string Qc)) (p : NaivePortfolio) :=
  mkNaivePortfolio (events p) (symbol_list p) (start_date p) (initial_capital p)
    (all_positions p) (current_positions p) v
    (current_holdings p) (all_orders p) (all_fills p) (equity_curve p)
    (order_history p).

Definition set_current_holdings (v : gmap string Qc) (p : NaivePortfolio) :=
  mkNaivePortfolio (events p) (symbol_list p) (start_date p) (initial_capital p)
    (all_positions p) (current_positions p) (all_holdings p)
    v (all_orders p) (all_fills p) (equity_curve p)
    (order_history p).

Definition set_all_orders (v : gmap Z Order) (p : NaivePortfolio) :=
  mkNaivePortfolio (events p) (symbol_list p) (start_date p) (initial_capital p)
    (all_positions p) (current_positions p) (all_holdings p)
    (current_holdings p) v (all_fills p) (equity_curve p)
    (order_history p).

Definition set_all_fills (v : list FillRecord.t) (p : NaivePortfolio) :=
  mkNaivePortfolio (events p) (symbol_list p) (start_date p) (initial_capital p)
    (all_positions p) (current_positions p) (all_holdings p)
    (current_holdings p) (all_orders p) v (equity_curve p)
    (order_history p).

Definition set_equity_curve (v : option EquityCurve) (p : NaivePortfolio) :=
  mkNaivePortfolio (events p) (symbol_list p) (start_date p) (initial_capital p)
    (all_positions p) (current_positions p) (all_holdings p)
    (current_holdings p) (all_orders p) (all_fills p) v
    (order_history p).

Definition set_order_history (v : option (list Order)) (p : NaivePortfolio) :=
  mkNaivePortfolio (events p) (symbol_list p) (start_date p) (initial_capital p)
    (all_positions p) (current_positions p) (all_holdings p)
    (current_holdings p) (all_orders p) (all_fills p) (equity_curve p)
    v.

(** ** Methods as state transformers that may raise

    A method takes [self] and gives back its result, or the exception it
    raised, together with [self] as the method left it: what was written
    before an exception stays written. *)
Definition M (A : Type) : Type := NaivePortfolio → result A * NaivePortfolio.

Definition ret {A : Type} (a : A) : M A := λ self, (Ok a, self).

Definition bind {A B : Type} (m : M A) (k : A → M B) : M B :=
  λ self,
    match m self with
    | (Ok a, self') => k a self'
    | (Raise e, self') => (Raise e, self')
    end.

Definition raise {A : Type} (e : exn) : M A := λ self, (Raise e, self).

Definition get {A : Type} (field : NaivePortfolio → A) : M A :=
  λ self, (Ok (field self), self).

Definition modify (f : NaivePortfolio → NaivePortfolio) : M unit :=
  λ self, (Ok tt, f self).

Definition lift {A : Type} (r : result A) : M A :=
  λ self, (r, self).

(** [for x in l: body(x)] *)
Fixpoint for_each {A : Type} (l : list A) (body : A → M unit) : M unit :=
  match l with
  | [] => ret tt
  | x :: rest => bind (body x) (λ _, for_each rest body)
  end.

(** [for x in l: body(x)] where the body also updates a local variable. *)
Fixpoint for_local {A B : Type} (l : list A) (local : B) (body : B → A → M B)
    : M B :=
  match l with
  | [] => ret local
  | x :: rest => bind (body local x) (λ local', for_local rest local' body)
  end.

End Portfolio.

Notation "'let*' x ':=' m 'in' k" := (bind m (λ x, k))
  (at level 10, x pattern, m at level 100, k at level 200,
   format "'[v' 'let*'  x  :=  m  'in' '/' k ']'").
Notation "m ';;' k" := (bind m (λ _, k))
  (at level 100, k at level 200, right associativity,
   format "'[v' m  ;; '/' k ']'").


(** ** pandas

    A column is a list of cells, [None] for a missing one. *)

(** [DataFrame(rows)[name]]: the frame has a column for every key that
    occurs in some row, and a row without the key has a missing cell. *)
Definition column (name : string) (rows : list (gmap string Qc))
    : result (list (option Qc)) :=
  if existsb (λ row, bool_decide (is_Some (row !! name))) rows
  then Ok (map (λ row, row !! name) rows)
  else Raise (KeyError name).

(** [cur / prev - 1] on cells. A float division by zero gives an infinity or
    NaN, which is no rational number: the cell is left without a value. *)
Definition pct (prev cur : option Qc) : option Qc :=
  match prev, cur with
  | Some p, Some c =>
      if bool_decide (p = 0%Qc) then None else Some (c / p - 1)%Qc
  | _, _ => None
  end.

Fixpoint pct_change_from (prev : option Qc) (xs : list (option Qc))
    : list (option Qc) :=
  match xs with
  | [] => []
  | x :: rest => pct prev x :: pct_change_from x rest
  end.

(** [Series.pct_change()]: each cell against the one before it, the first
    cell having none before it. *)
Definition pct_change (xs : list (option Qc)) : list (option Qc) :=
  match xs with
  | [] => []
  | x :: rest => None :: pct_change_from x rest
  end.

Fixpoint cumprod_from (acc : Qc) (xs : list (option Qc)) : list (option Qc) :=
  match xs with
  | [] => []
  | None :: rest => None :: cumprod_from acc rest
  | Some x :: rest => Some (acc * x)%Qc :: cumprod_from (acc * x)%Qc rest
  end.

(** [Series.cumprod()]: the running product, which skips a missing cell and
    leaves it missing in the result. *)
Definition cumprod (xs : list (option Qc)) : list (option Qc) :=
  cumprod_from 1%Qc xs.

(** [1.0 + series] *)
Definition one_plus (xs : list (option Qc)) : list (option Qc) :=
  map (λ x, match x with Some r => Some (1 + r)%Qc | None => None end) xs.

(** [sum(cells)] *)
Definition Qc_sum (xs : list Qc) : Qc := fold_left Qcplus xs 0%Qc.

(** ** The portfolio *)

Section NaivePortfolio.
Context {C : Collaborators}.

Definition construct_all_positions (symbol_list : list string)
    (start_date : Z) : list (gmap string Z) :=
  let d := dict (map (λ s, (s, 0)) symbol_list) in
  let d := <["datetime" := start_date]> d in
  [d].

Definition construct_all_holdings (symbol_list : list string)
    (start_date : Z) (initial_capital : Qc) : list (gmap string Qc) :=
  let d := dict (map (λ s, (s, 0%Qc)) symbol_list) in
  let d := <["datetime" := Qz start_date]> d in
  let d := <["cash" := initial_capital]> d in
  let d := <["commission" := 0%Qc]> d in
  let d := <["total" := initial_capital]> d in
  [d].

Definition construct_current_holdings (symbol_list : list string)
    (initial_capital : Qc) : gmap string Qc :=
  let d := dict (map (λ s, (s, 0%Qc)) symbol_list) in
  let d := <["cash" := initial_capital]> d in
  let d := <["commission" := 0%Qc]> d in
  let d := <["total" := initial_capital]> d in
  d.

Definition __init__ (bars : DataHandler.t) (events : list (option Order))
    (start_date : Z) (initial_capital : Qc) : NaivePortfolio :=
  let symbol_list := DataHandler.symbol_list bars in
  {| events := events;
     symbol_list := symbol_list;
     start_date := start_date;
     initial_capital := initial_capital;
     all_positions := construct_all_positions symbol_list start_date;
     current_positions := dict (map (λ s, (s, 0)) symbol_list);
     all_holdings :=
       construct_all_holdings symbol_list start_date initial_capital;
     current_holdings :=
       construct_current_holdings symbol_list initial_capital;
     all_orders := ∅;
     all_fills := [];
     equity_curve := None;
     order_history := None |}.

(** The body of the first loop of [update_timeindex]:
    [dp[s] = self.current_positions[s]]. *)
Definition copy_position (dp : gmap string Z) (s : string)
    : M (gmap string Z) :=
  let* current_positions := get current_positions in
  let* v := lift (getitem current_positions s) in
  ret (<[s := v]> dp).

(** The body of its second loop: the position of [s] at the latest close,
    stored under [s] and added to [dh['total']]. *)
Definition mark_to_market (bars : DataHandler.t) (dh : gmap string Qc)
    (s : string) : M (gmap string Qc) :=
  let* current_positions := get current_positions in
  let* position := lift (getitem current_positions s) in
  let market_value :=
    (Qz position * DataHandler.get_latest_bar_value bars s "close")%Qc in
  let dh := <[s := market_value]> dh in
  let* total := lift (getitem dh "total") in
  ret (<["total" := (total + market_value)%Qc]> dh).

Definition update_timeindex (bars : DataHandler.t) (event : Event) : M unit :=
  let* symbol_list := get symbol_list in
  let* first :=
    lift (match symbol_list with
          | s :: _ => Ok s
          | [] => Raise IndexError
          end) in
  let latest_datetime := DataHandler.get_latest_bar_datetime bars first in
  (* Update positions *)
  let dp := dict (map (λ s, (s, 0)) symbol_list) in
  let dp := <["datetime" := latest_datetime]> dp in
  let* dp := for_local symbol_list dp copy_position in
  let* all_positions := get all_positions in
  modify (set_all_positions (all_positions ++ [dp])) ;;
  (* Update holdings *)
  let dh := dict (map (λ s, (s, 0%Qc)) symbol_list) in
  let dh := <["datetime" := Qz latest_datetime]> dh in
  let* current_holdings := get current_holdings in
  let* cash := lift (getitem current_holdings "cash") in
  let dh := <["cash" := cash]> dh in
  let* commission := lift (getitem current_holdings "commission") in
  let dh := <["commission" := commission]> dh in
  let* cash := lift (getitem current_holdings "cash") in
  let dh := <["total" := cash]> dh in
  let* dh := for_local symbol_list dh (mark_to_market bars) in
  let* all_holdings := get all_holdings in
  modify (set_all_holdings (all_holdings ++ [dh])).

Definition update_positions_from_fill (fill : FillEvent.t) : M unit :=
  let fill_dir := 0 in
  let fill_dir :=
    if String.eqb (FillEvent.direction fill) "BUY" then 1 else fill_dir in
  let fill_dir :=
    if String.eqb (FillEvent.direction fill) "SELL" then -1 else fill_dir in
  let* current_positions := get current_positions in
  let* old := lift (getitem current_positions (FillEvent.symbol fill)) in
  modify (set_current_positions
            (<[FillEvent.symbol fill := old + fill_dir * FillEvent.quantity fill]>
               current_positions)).

(** [self.current_holdings[key] = f(self.current_holdings[key])], the
    shape of [+=] and [-=] on an entry. *)
Definition update_holding (key : string) (f : Qc → Qc) : M unit :=
  let* current_holdings := get current_holdings in
  let* old := lift (getitem current_holdings key) in
  modify (set_current_holdings (<[key := f old]> current_holdings)).

Definition update_holdings_from_fill (bars : DataHandler.t)
    (fill : FillEvent.t) : M unit :=
  let fill_dir := 0 in
  let fill_dir :=
    if String.eqb (FillEvent.direction fill) "BUY" then 1 else fill_dir in
  let fill_dir :=
    if String.eqb (FillEvent.direction fill) "SELL" then -1 else fill_dir in
  let fill_cost :=
    DataHandler.get_latest_bar_value bars (FillEvent.symbol fill) "close" in
  let cost := (Qz fill_dir * fill_cost * Qz (FillEvent.quantity fill))%Qc in
  update_holding (FillEvent.symbol fill) (λ v, v + cost)%Qc ;;
  update_holding "commission" (λ v, v + FillEvent.commission fill)%Qc ;;
  update_holding "cash" (λ v, v - (cost + FillEvent.commission fill))%Qc ;;
  update_holding "total" (λ v, v - (cost + FillEvent.commission fill))%Qc.

Definition update_orders_from_fill (fill : FillEvent.t) : M unit :=
  let order := FillEvent.order fill in
  let* all_orders := get all_orders in
  modify (set_all_orders (<[order_id order := order]> all_orders)).

Definition update_fill (bars : DataHandler.t) (event : Event) : M unit :=
  if String.eqb (event_type event) "FILL" then
    match event with
    | FillEv event =>
        update_positions_from_fill event ;;
        update_holdings_from_fill bars event ;;
        update_orders_from_fill event ;;
        let fill :=
          {| FillRecord.type := FillEvent.type event;
             FillRecord.symbol := FillEvent.symbol event;
             FillRecord.direction := FillEvent.direction event;
             FillRecord.quantity := FillEvent.quantity event;
             FillRecord.commission := FillEvent.commission event;
             FillRecord.fill_price := FillEvent.fill_price event;
             FillRecord.order := order_id (FillEvent.order event) |} in
        let* all_fills := get all_fills in
        modify (set_all_fills (all_fills ++ [fill]))
    | SignalEv _ | OtherEv _ =>
        (* the first attribute a fill is asked for *)
        raise (AttributeError "direction")
    end
  else ret tt.

Definition update_fills (bars : DataHandler.t) (events : list Event) : M unit :=
  for_each events (update_fill bars).

Definition generate_naive_order (signal : SignalEvent.t) : M (option Order) :=
  let order := None in
  let direction := SignalEvent.signal_type signal in
  let* current_positions := get current_positions in
  let* cur_quantity :=
    lift (getitem current_positions (SignalEvent.symbol signal)) in
  let order :=
    if String.eqb direction "LONG"
    then Some (OrderEvent signal (SignalEvent.quantity signal) "BUY")
    else order in
  let order :=
    if String.eqb direction "SHORT"
    then Some (OrderEvent signal (SignalEvent.quantity signal) "SELL")
    else order in
  let order :=
    if String.eqb direction "EXIT" && Z.ltb 0 cur_quantity
    then Some (OrderEvent signal (Z.abs cur_quantity) "SELL")
    else order in
  let order :=
    if String.eqb direction "EXIT" && Z.ltb cur_quantity 0
    then Some (OrderEvent signal (Z.abs cur_quantity) "BUY")
    else order in
  ret order.

Definition update_signal (event : Event) : M unit :=
  if String.eqb (event_type event) "SIGNAL" then
    match event with
    | SignalEv event =>
        let* order_event := generate_naive_order event in
        let* events := get events in
        modify (set_events (events ++ [order_event]))
    | FillEv _ | OtherEv _ =>
        (* the first attribute a signal is asked for *)
        raise (AttributeError "signal_type")
    end
  else ret tt.

Definition create_equity_curve_dataframe : M unit :=
  let* all_holdings := get all_holdings in
  let* index := lift (column "datetime" all_holdings) in
  let rows := map (delete "datetime") all_holdings in
  let* total := lift (column "total" rows) in
  let returns := pct_change total in
  let equity_curve := cumprod (one_plus returns) in
  modify (set_equity_curve
            (Some {| ec_index := index;
                     ec_rows := rows;
                     ec_returns := returns;
                     ec_equity_curve := equity_curve;
                     ec_drawdown := None |})).

(** The rows of the order table keep the registry's values; the order of
    the rows plays no part in what is computed from them. *)
Definition create_order_history_dataframe : M unit :=
  let* all_orders := get all_orders in
  let orders := map snd (map_to_list all_orders) in
  modify (set_order_history (Some orders)).

(** The figures of [output_summary_stats], before they are formatted
    into text. *)
Record SummaryStats : Type := mkSummaryStats {
  stat_profit : Qc;
  stat_sharpe_ratio : Qc;
  stat_max_drawdown : Qc;
  stat_drawdown_duration : Z;
  stat_win_rate : Qc;
  stat_trade_number : nat;
  stat_total_profit : Qc;
  stat_total_loss : Qc
}.

(** [frame['profit']] on the order table: a frame built from no rows has
    no columns. *)
Definition profit_column (rows : list Order) : result (list Qc) :=
  match rows with
  | [] => Raise (KeyError "profit")
  | _ => Ok (map profit rows)
  end.

Definition output_summary_stats : M SummaryStats :=
  let* curve := get equity_curve in
  let* curve :=
    lift (match curve with
          | Some c => Ok c
          | None => Raise (AttributeError "equity_curve")
          end) in
  let* total_return :=
    lift (match last (ec_equity_curve curve) with
          | Some v => Ok v
          | None => Raise IndexError
          end) in
  let returns := ec_returns curve in
  let pnl := ec_equity_curve curve in
  let sharpe_ratio := create_sharpe_ratio returns (252 * 6) in
  let '(drawdown, max_dd, dd_duration) := create_drawdowns pnl in
  modify (set_equity_curve
            (Some {| ec_index := ec_index curve;
                     ec_rows := ec_rows curve;
                     ec_returns := ec_returns curve;
                     ec_equity_curve := ec_equity_curve curve;
                     ec_drawdown := Some drawdown |})) ;;
  let* order_history := get order_history in
  let* order_history :=
    lift (match order_history with
          | Some h => Ok h
          | None => Raise (AttributeError "order_history")
          end) in
  let* profits := lift (profit_column order_history) in
  let profit := Qc_sum profits in
  let profit := round profit 1 in
  let* profits := lift (profit_column order_history) in
  let total_profit := Qc_sum (List.filter (λ x, Qc_ltb 0%Qc x) profits) in
  let total_profit := round total_profit 1 in
  let* profits := lift (profit_column order_history) in
  let total_loss := Qc_sum (List.filter (λ x, Qc_ltb x 0%Qc) profits) in
  let total_loss := round total_loss 1 in
  let trade_no := length order_history in
  let* profits := lift (profit_column order_history) in
  let wins := length (List.filter (λ x, Qc_ltb 0%Qc x) profits) in
  let* ratio :=
    lift (if Nat.eqb trade_no 0 then Raise ZeroDivisionError
          else Ok (Qz (Z.of_nat wins) / Qz (Z.of_nat trade_no))%Qc) in
  let winrate := round ratio 3 in
  ret {| stat_profit := profit;
         stat_sharpe_ratio := sharpe_ratio;
         stat_max_drawdown := (max_dd * Qz 100)%Qc;
         stat_drawdown_duration := dd_duration * 4;
         stat_win_rate := (winrate * Qz 100)%Qc;
         stat_trade_number := trade_no;
         stat_total_profit := total_profit;
         stat_total_loss := total_loss |}.

End NaivePortfolio.

(** ** A concrete set of collaborators

    Orders that record the arguments of their constructor, with identifier
    and profit zero until someone sets them, and statistics that are
    constant: enough to run the portfolio on concrete events. *)

Module SimOrder.
Record t : Type := mk {
  signal : SignalEvent.t;
  quantity : Z;
  direction : string;
  order_id : Z;
  profit : Qc
}.
End SimOrder.

#[export] Instance sim : Collaborators := {|
  Order := SimOrder.t;
  OrderEvent signal quantity direction :=
    SimOrder.mk signal quantity direction 0 0%Qc;
  order_id := SimOrder.order_id;
  profit := SimOrder.profit;
  create_sharpe_ratio _ _ := 0%Qc;
  create_drawdowns pnl := (map (λ _, Some 0%Qc) pnl, 0%Qc, 0)
|}.

(** One instrument ["X"] whose latest close is [close]. *)
Definition bars_X (close : Z) : DataHandler.t :=
  {| DataHandler.symbol_list := ["X"];
     DataHandler.get_latest_bar_datetime := λ _, 0;
     DataHandler.get_latest_bar_value := λ _ _, Qz close |}.

Definition signal_X (kind : string) (quantity : Z) : SignalEvent.t :=
  SignalEvent.mk "SIGNAL" "X" kind quantity.

(** A fill of [quantity] units of ["X"] with commission 1, carrying the
    price [price]. *)
Definition fill_X (direction : string) (quantity price : Z) : FillEvent.t :=
  {| FillEvent.type := "FILL";
     FillEvent.symbol := "X";
     FillEvent.direction := direction;
     FillEvent.quantity := quantity;
     FillEvent.commission := Qz 1;
     FillEvent.fill_price := Qz price;
     FillEvent.order :=
       SimOrder.mk (signal_X "LONG" quantity) quantity direction 7 0%Qc |}.

(** The portfolio of scenario A at its start. *)
Definition portfolio_X : NaivePortfolio :=
  __init__ (bars_X 50) [] 0 (Qz 100000).

(** The same portfolio after a BUY of 10 units at a close of 50. *)
Definition portfolio_X_long : NaivePortfolio :=
  snd (update_fill (bars_X 50) (FillEv (fill_X "BUY" 10 50)) portfolio_X).

(** The entry [key] of the holdings record appended last. *)
Definition latest_snapshot {C : Collaborators} (self : NaivePortfolio)
    (key : string) : option Qc :=
  match last (all_holdings self) with
  | Some dh => dh !! key
  | None => None
  end.

(** Scenario A: the BUY of 10 units at a close of 50 with commission 1,
    then the snapshot of the next bar, which closes at 55. *)
Definition scenario_A_fill : result unit * NaivePortfolio :=
  update_fill (bars_X 50) (FillEv (fill_X "BUY" 10 50)) portfolio_X.

Definition scenario_A_bar : result unit * NaivePortfolio :=
  update_timeindex (bars_X 55) (OtherEv "MARKET") (snd scenario_A_fill).

(** The equity curve built from the snapshots of scenario A. *)
Definition scenario_A_report : result unit * NaivePortfolio :=
  create_equity_curve_dataframe (snd scenario_A_bar).

(** The cell [t] of the column [equity_curve], and the column [returns],
    of the table a portfolio holds. *)
Definition equity_at {C : Collaborators} (self : NaivePortfolio) (t : nat)
    : option (option Qc) :=
  match equity_curve self with
  | Some curve => ec_equity_curve curve !! t
  | None => None
  end.

Definition returns_of {C : Collaborators} (self : NaivePortfolio)
    : list (option Qc) :=
  match equity_curve self with
  | Some curve => ec_returns curve
  | None => []
  end.

(** Scenario C: the reporting run on a portfolio that has seen a bar and no
    fill, so that its order registry is empty. *)
Definition scenario_C : result SummaryStats * NaivePortfolio :=
  (update_timeindex (bars_X 55) (OtherEv "MARKET") ;;
   create_equity_curve_dataframe ;;
   create_order_history_dataframe ;;
   output_summary_stats) portfolio_X.

(** ** What the specification says, in its own words *)

(** The sign of a fill: [+1] for a BUY, [-1] for a SELL. *)
Definition sign (direction : string) : Z :=
  if bool_decide (direction = "BUY") then 1
  else if bool_decide (direction = "SELL") then -1
  else 0.

(** The sum of the signed quantities of a list of fills. *)
Definition signed_quantities {C : Collaborators} (fills : list FillEvent.t) : Z :=
  foldr (λ fill acc, sign (FillEvent.direction fill) * FillEvent.quantity fill + acc)
    0 fills.

(** The sizing table of the order sizer: each row is the condition under
    which the rule fires and the order it then produces. *)
Definition sizing_rules {C : Collaborators} (position : Z)
    (signal : SignalEvent.t) : list (bool * option Order) :=
  let kind := SignalEvent.signal_type signal in
  [ (bool_decide (kind = "LONG"),
     Some (OrderEvent signal (SignalEvent.quantity signal) "BUY"));
    (bool_decide (kind = "SHORT"),
     Some (OrderEvent signal (SignalEvent.quantity signal) "SELL"));
    (bool_decide (kind = "EXIT" ∧ 0 < position),
     Some (OrderEvent signal (Z.abs position) "SELL"));
    (bool_decide (kind = "EXIT" ∧ position < 0),
     Some (OrderEvent signal (Z.abs position) "BUY"));
    (bool_decide (kind = "EXIT" ∧ position = 0), None) ].

(** How many rules of the table fire. *)
Definition fired {A : Type} (rules : list (bool * A)) : nat :=
  length (List.filter fst rules).

(** The order of the rule that fires, and no order when none does. *)
Definition sized_order {C : Collaborators} (position : Z)
    (signal : SignalEvent.t) : option Order :=
  match List.find fst (sizing_rules position signal) with
  | Some rule => snd rule
  | None => None
  end.

(** The holdings update as the specification words it, with the price the
    fill carries: what [update_holdings_from_fill] would have to do to
    [before] to reach [after]. *)
Definition holdings_updated_at_fill_price {C : Collaborators}
    (fill : FillEvent.t) (before after : gmap string Qc) : Prop :=
  let amount :=
    (Qz (sign (FillEvent.direction fill) * FillEvent.quantity fill)
     * FillEvent.fill_price fill)%Qc in
  ∃ value commission cash total : Qc,
    before !! FillEvent.symbol fill = Some value ∧
    before !! "commission" = Some commission ∧
    before !! "cash" = Some cash ∧
    before !! "total" = Some total ∧
    after !! FillEvent.symbol fill = Some (value + amount)%Qc ∧
    after !! "commission" = Some (commission + FillEvent.commission fill)%Qc ∧
    after !! "cash" = Some (cash - (amount + FillEvent.commission fill))%Qc ∧
    after !! "total" = Some (total - (amount + FillEvent.commission fill))%Qc.

(** The same with the latest close of the instrument as the price. *)
Definition holdings_updated_at_latest_close {C : Collaborators}
    (bars : DataHandler.t) (fill : FillEvent.t)
    (before after : gmap string Qc) : Prop :=
  let amount :=
    (Qz (sign (FillEvent.direction fill) * FillEvent.quantity fill)
     * DataHandler.get_latest_bar_value bars (FillEvent.symbol fill) "close")%Qc in
  ∃ value commission cash total : Qc,
    before !! FillEvent.symbol fill = Some value ∧
    before !! "commission" = Some commission ∧
    before !! "cash" = Some cash ∧
    before !! "total" = Some total ∧
    after !! FillEvent.symbol fill = Some (value + amount)%Qc ∧
    after !! "commission" = Some (commission + FillEvent.commission fill)%Qc ∧
    after !! "cash" = Some (cash - (amount + FillEvent.commission fill))%Qc ∧
    after !! "total" = Some (total - (amount + FillEvent.commission fill))%Qc.

(** The returns of a run of totals that follows the total [prev]:
    [total_t / total_{t-1} - 1]. *)
Fixpoint simple_returns (prev : Qc) (totals : list Qc) : list Qc :=
  match totals with
  | [] => []
  | total :: rest => (total / prev - 1)%Qc :: simple_returns total rest
  end.

(** The factors [1 + return_i] of the returns that have a value. *)
Definition defined_growth (returns : list (option Qc)) : list Qc :=
  omap (λ r, match r with Some x => Some (1 + x)%Qc | None => None end) returns.

(** The product of [1 + return_i] over the defined returns with [i ≤ t]. *)
Definition product_of_defined (returns : list (option Qc)) (t : nat) : Qc :=
  fold_left Qcmult (defined_growth (take (S t) returns)) 1%Qc.

(** The keys of a holdings record that are not instruments. *)
Definition ledger_keys : list string := ["cash"; "commission"; "total"].

(** What the constructor sets up and every method keeps: each symbol has a
    position, and the current holdings have an entry for each symbol and
    for each ledger key. *)
Definition well_formed {C : Collaborators} (self : NaivePortfolio) : Prop :=
  (∀ s, s ∈ symbol_list self → is_Some (current_positions self !! s)) ∧
  (∀ k, k ∈ (symbol_list self ++ ledger_keys)%list →
        is_Some (current_holdings self !! k)).

(** ** Further inputs and predicates *)

(** [vars(event)] of a fill once its order is replaced by the order's
    identifier: the record [update_fill] appends to the fill log. *)
Definition fill_record {C : Collaborators} (event : FillEvent.t)
    : FillRecord.t :=
  {| FillRecord.type := FillEvent.type event;
     FillRecord.symbol := FillEvent.symbol event;
     FillRecord.direction := FillEvent.direction event;
     FillRecord.quantity := FillEvent.quantity event;
     FillRecord.commission := FillEvent.commission event;
     FillRecord.fill_price := FillEvent.fill_price event;
     FillRecord.order := order_id (FillEvent.order event) |}.

(** A fill and a signal on ["Y"], an instrument the portfolio of scenario A
    does not trade. *)
Definition fill_Y : FillEvent.t :=
  {| FillEvent.type := "FILL";
     FillEvent.symbol := "Y";
     FillEvent.direction := "BUY";
     FillEvent.quantity := 5;
     FillEvent.commission := Qz 1;
     FillEvent.fill_price := Qz 20;
     FillEvent.order :=
       SimOrder.mk (SignalEvent.mk "SIGNAL" "Y" "LONG" 5) 5 "BUY" 8 0%Qc |}.

Definition signal_Y : SignalEvent.t := SignalEvent.mk "SIGNAL" "Y" "LONG" 5.

(** A fill on ["Y"] whose direction is neither BUY nor SELL. *)
Definition fill_Y_hold : FillEvent.t :=
  {| FillEvent.type := "FILL";
     FillEvent.symbol := "Y";
     FillEvent.direction := "HOLD";
     FillEvent.quantity := 5;
     FillEvent.commission := Qz 1;
     FillEvent.fill_price := Qz 20;
     FillEvent.order :=
       SimOrder.mk (SignalEvent.mk "SIGNAL" "Y" "LONG" 5) 5 "HOLD" 9 0%Qc |}.

(** A portfolio over no instrument at all. *)
Definition portfolio_empty : NaivePortfolio :=
  __init__ {| DataHandler.symbol_list := [];
              DataHandler.get_latest_bar_datetime := λ _, 0;
              DataHandler.get_latest_bar_value := λ _ _, 0%Qc |}
    [] 0 (Qz 100000).

(** In the current holdings the total is the cash. *)
Definition cash_is_total {C : Collaborators} (self : NaivePortfolio) : Prop :=
  current_holdings self !! "cash" = current_holdings self !! "total".

(** There is a holdings record, and every holdings record has a timestamp
    and a total. *)
Definition snapshots_keyed {C : Collaborators} (self : NaivePortfolio) : Prop :=
  all_holdings self ≠ [] ∧
  Forall (λ row : gmap string Qc,
            is_Some (row !! "datetime") ∧ is_Some (row !! "total"))
    (all_holdings self).

(** ** Arithmetic of the number model *)

Lemma Qz_0 : Qz 0 = 0%Qc.
Proof. apply Qc_is_canon. reflexivity. Qed.

Lemma Qz_1 : Qz 1 = 1%Qc.
Proof. apply Qc_is_canon. reflexivity. Qed.

Lemma Qz_mul (a b : Z) : Qz (a * b) = (Qz a * Qz b)%Qc.
Proof.
  apply Qc_is_canon. unfold Qz, Qcmult, Q2Qc. cbn [this].
  rewrite !Qred_correct, inject_Z_mult. reflexivity.
Qed.

Lemma Qz_add (a b : Z) : Qz (a + b) = (Qz a + Qz b)%Qc.
Proof.
  apply Qc_is_canon. unfold Qz, Qcplus, Q2Qc. cbn [this].
  rewrite !Qred_correct, inject_Z_plus. reflexivity.
Qed.

Lemma Qc_sum_from (xs : list Qc) (a : Qc) :
  fold_left Qcplus xs a = (a + Qc_sum xs)%Qc.
Proof.
  unfold Qc_sum. revert a.
  induction xs as [|x xs IH]; intros a; cbn [fold_left].
  - ring.
  - rewrite IH, (IH (0 + x)%Qc). ring.
Qed.

Lemma Qc_sum_cons (x : Qc) (xs : list Qc) :
  Qc_sum (x :: xs) = (x + Qc_sum xs)%Qc.
Proof.
  unfold Qc_sum at 1. cbn [fold_left]. rewrite Qc_sum_from. ring.
Qed.

Lemma sign_BUY : sign "BUY" = 1.
Proof. reflexivity. Qed.

Lemma sign_SELL : sign "SELL" = -1.
Proof. reflexivity. Qed.

Lemma sign_other (direction : string) :
  direction ≠ "BUY" → direction ≠ "SELL" → sign direction = 0.
Proof.
  intros Hb Hs. unfold sign.
  rewrite !bool_decide_eq_false_2 by assumption. reflexivity.
Qed.

(** The direction test that both fill updates write out. *)
Lemma fill_dir_sign (direction : string) :
  (let fill_dir := 0 in
   let fill_dir := if String.eqb direction "BUY" then 1 else fill_dir in
   let fill_dir := if String.eqb direction "SELL" then -1 else fill_dir in
   fill_dir) = sign direction.
Proof.
  unfold sign. cbv zeta.
  destruct (String.eqb_spec direction "SELL") as [->|Hs].
  - reflexivity.
  - destruct (String.eqb_spec direction "BUY") as [->|Hb].
    + reflexivity.
    + rewrite !bool_decide_eq_false_2 by assumption. reflexivity.
Qed.

Lemma getitem_Some {V : Type} (d : gmap string V) (k : string) (v : V) :
  d !! k = Some v → getitem d k = Ok v.
Proof. intros H. unfold getitem. rewrite H. reflexivity. Qed.

Lemma getitem_None {V : Type} (d : gmap string V) (k : string) :
  d !! k = None → getitem d k = Raise (KeyError k).
Proof. intros H. unfold getitem. rewrite H. reflexivity. Qed.

(** ** Events that are not for the method *)

Section Gates.
Context {C : Collaborators}.

(** C8. An event whose [type] is not FILL is ignored by [update_fill]:
    the method returns without raising and leaves the portfolio, and so
    the current positions, the current holdings, the order registry and
    the fill log, as they were. *)
Theorem update_fill_ignores_other_events
    (bars : DataHandler.t) (event : Event) (self : NaivePortfolio) :
  event_type event ≠ "FILL" →
  update_fill bars event self = (Ok tt, self).
Proof.
  intros Htype. unfold update_fill.
  destruct (String.eqb_spec (event_type event) "FILL") as [Heq|_].
  - contradiction.
  - reflexivity.
Qed.

End Gates.

Lemma update_fill_ignores_other_events_witness :
  event_type (SignalEv (signal_X "EXIT" 0)) ≠ "FILL" ∧
  update_fill (bars_X 50) (SignalEv (signal_X "EXIT" 0)) portfolio_X
  = (Ok tt, portfolio_X).
Proof.
  assert (H : event_type (SignalEv (signal_X "EXIT" 0)) ≠ "FILL")
    by (simpl; discriminate).
  split; [exact H|].
  exact (update_fill_ignores_other_events (bars_X 50) _ portfolio_X H).
Defined.

(** ** Order sizing *)

Section Sizing.
Context {C : Collaborators}.

Lemma generate_naive_order_run (signal : SignalEvent.t)
    (self : NaivePortfolio) (position : Z) :
  current_positions self !! SignalEvent.symbol signal = Some position →
  generate_naive_order signal self =
    (Ok (let kind := SignalEvent.signal_type signal in
         if String.eqb kind "EXIT" && Z.ltb position 0
         then Some (OrderEvent signal (Z.abs position) "BUY")
         else if String.eqb kind "EXIT" && Z.ltb 0 position
         then Some (OrderEvent signal (Z.abs position) "SELL")
         else if String.eqb kind "SHORT"
         then Some (OrderEvent signal (SignalEvent.quantity signal) "SELL")
         else if String.eqb kind "LONG"
         then Some (OrderEvent signal (SignalEvent.quantity signal) "BUY")
         else None),
     self).
Proof.
  intros Hpos. unfold generate_naive_order, bind, get, lift, ret.
  rewrite (getitem_Some _ _ _ Hpos). reflexivity.
Qed.

(** Without a position for the symbol the sizing raises, whatever the
    kind of the signal. *)
Lemma generate_naive_order_unknown_symbol (signal : SignalEvent.t)
    (self : NaivePortfolio) :
  current_positions self !! SignalEvent.symbol signal = None →
  generate_naive_order signal self =
    (Raise (KeyError (SignalEvent.symbol signal)), self).
Proof.
  intros Hpos. unfold generate_naive_order, bind, get, lift.
  rewrite (getitem_None _ _ Hpos). reflexivity.
Qed.

(** Settle every test of the table once the kind of the signal and the
    sign of the position are known. *)
Ltac decide_rules :=
  repeat match goal with
    | |- context [bool_decide ?P] =>
        first
          [ rewrite (bool_decide_eq_true_2 P)
              by (repeat split; congruence || lia)
          | rewrite (bool_decide_eq_false_2 P)
              by (intros ?; intuition (congruence || lia)) ]
    end.

(** Split on the kind of the signal and on the sign of the position. *)
Ltac by_kind_and_sign signal position :=
  destruct (String.eqb_spec (SignalEvent.signal_type signal) "LONG") as [HL|HL];
  destruct (String.eqb_spec (SignalEvent.signal_type signal) "SHORT") as [HS|HS];
  destruct (String.eqb_spec (SignalEvent.signal_type signal) "EXIT") as [HE|HE];
  try (rewrite HL in *); try (rewrite HS in *); try (rewrite HE in *);
  try discriminate;
  destruct (Z.ltb_spec position 0) as [Hneg|Hneg];
  destruct (Z.ltb_spec 0 position) as [Hpos|Hpos];
  try lia.

Lemma sizing_rules_exclusive (position : Z) (signal : SignalEvent.t) :
  (fired (sizing_rules position signal) ≤ 1)%nat.
Proof.
  unfold fired, sizing_rules.
  by_kind_and_sign signal position; decide_rules; cbn; lia.
Qed.

(** The sequence of tests in the source picks the row that fires. *)
Lemma sized_order_unfold (position : Z) (signal : SignalEvent.t) :
  (let kind := SignalEvent.signal_type signal in
   if String.eqb kind "EXIT" && Z.ltb position 0
   then Some (OrderEvent signal (Z.abs position) "BUY")
   else if String.eqb kind "EXIT" && Z.ltb 0 position
   then Some (OrderEvent signal (Z.abs position) "SELL")
   else if String.eqb kind "SHORT"
   then Some (OrderEvent signal (SignalEvent.quantity signal) "SELL")
   else if String.eqb kind "LONG"
   then Some (OrderEvent signal (SignalEvent.quantity signal) "BUY")
   else None)
  = sized_order position signal.
Proof.
  unfold sized_order, sizing_rules. cbv zeta.
  by_kind_and_sign signal position; decide_rules; reflexivity.
Qed.

Lemma sized_order_fires (position : Z) (signal : SignalEvent.t)
    (rule : bool * option Order) :
  rule ∈ sizing_rules position signal → rule.1 = true →
  sized_order position signal = rule.2.
Proof.
  unfold sized_order, sizing_rules. intros Hin Hfire.
  repeat (apply elem_of_cons in Hin as [->|Hin]);
    [ | | | | | by apply elem_of_nil in Hin ];
    cbn [fst snd] in *; apply bool_decide_eq_true_1 in Hfire;
    by_kind_and_sign signal position;
    try (exfalso; intuition (congruence || lia));
    decide_rules; reflexivity.
Qed.

Lemma sizing_rules_total (position : Z) (signal : SignalEvent.t) :
  SignalEvent.signal_type signal ∈ ["LONG"; "SHORT"; "EXIT"] →
  fired (sizing_rules position signal) = 1%nat.
Proof.
  intros Hkind. unfold fired, sizing_rules.
  repeat (apply elem_of_cons in Hkind as [Hkind|Hkind]);
    [ | | | by apply elem_of_nil in Hkind ];
    rewrite Hkind;
    destruct (Z.lt_trichotomy position 0) as [Hp|[Hp|Hp]];
    decide_rules; reflexivity.
Qed.

(** C5. The order that [generate_naive_order] returns is the one the
    sizing table gives for the current position of the signal's symbol
    and the signal, and the portfolio is left as it was: LONG gives a
    BUY of the signal's quantity, SHORT a SELL of it, EXIT a SELL of
    [abs position] above zero and a BUY of it below zero, and no order
    at zero.  No two rows of the table fire together, and exactly one
    fires for a LONG, SHORT or EXIT signal. *)
Theorem generate_naive_order_follows_table (signal : SignalEvent.t)
    (self : NaivePortfolio) (position : Z) :
  current_positions self !! SignalEvent.symbol signal = Some position →
  generate_naive_order signal self
    = (Ok (sized_order position signal), self) ∧
  (∀ rule, rule ∈ sizing_rules position signal → rule.1 = true →
           sized_order position signal = rule.2) ∧
  (fired (sizing_rules position signal) ≤ 1)%nat ∧
  (SignalEvent.signal_type signal ∈ ["LONG"; "SHORT"; "EXIT"] →
   fired (sizing_rules position signal) = 1%nat).
Proof.
  intros Hpos.
  split; [|split; [|split]].
  - rewrite (generate_naive_order_run _ _ _ Hpos). f_equal. f_equal.
    apply sized_order_unfold.
  - apply sized_order_fires.
  - apply sizing_rules_exclusive.
  - apply sizing_rules_total.
Qed.

(** C9, as the code has it. A signal event whose symbol has a position
    makes [update_signal] put exactly one item on the event queue, the
    result of the sizing.  The item is [None] for an EXIT signal at
    position zero and for a signal whose kind is none of LONG, SHORT and
    EXIT. *)
Theorem update_signal_puts_one_item (signal : SignalEvent.t)
    (self : NaivePortfolio) (position : Z) :
  SignalEvent.type signal = "SIGNAL" →
  current_positions self !! SignalEvent.symbol signal = Some position →
  ∃ item : option Order,
    update_signal (SignalEv signal) self
      = (Ok tt, set_events (events self ++ [item]) self) ∧
    item = sized_order position signal ∧
    (SignalEvent.signal_type signal = "EXIT" ∧ position = 0 → item = None) ∧
    (SignalEvent.signal_type signal ∉ ["LONG"; "SHORT"; "EXIT"] →
     item = None).
Proof.
  intros Htype Hpos. exists (sized_order position signal).
  split; [|split; [reflexivity|split]].
  - unfold update_signal. cbn [event_type]. rewrite Htype.
    cbn [String.eqb Ascii.eqb Bool.eqb].
    unfold bind at 1.
    rewrite (generate_naive_order_run signal self position Hpos).
    cbv zeta. rewrite sized_order_unfold. reflexivity.
  - intros [Hkind ->]. unfold sized_order, sizing_rules.
    rewrite Hkind. reflexivity.
  - intros Hkind. unfold sized_order, sizing_rules.
    assert (SignalEvent.signal_type signal ≠ "LONG") by set_solver.
    assert (SignalEvent.signal_type signal ≠ "SHORT") by set_solver.
    assert (SignalEvent.signal_type signal ≠ "EXIT") by set_solver.
    decide_rules. reflexivity.
Qed.

End Sizing.

Lemma generate_naive_order_follows_table_witness :
  current_positions portfolio_X_long !! "X" = Some 10 ∧
  generate_naive_order (signal_X "EXIT" 0) portfolio_X_long
  = (Ok (Some (OrderEvent (signal_X "EXIT" 0) 10 "SELL")), portfolio_X_long).
Proof.
  assert (H : current_positions portfolio_X_long
                !! SignalEvent.symbol (signal_X "EXIT" 0) = Some 10)
    by (vm_compute; reflexivity).
  split; [exact H|].
  exact (proj1 (generate_naive_order_follows_table
                  (signal_X "EXIT" 0) portfolio_X_long 10 H)).
Defined.

Lemma update_signal_puts_one_item_witness :
  SignalEvent.type (signal_X "EXIT" 0) = "SIGNAL" ∧
  current_positions portfolio_X !! "X" = Some 0 ∧
  ∃ item : option Order,
    update_signal (SignalEv (signal_X "EXIT" 0)) portfolio_X
      = (Ok tt, set_events (events portfolio_X ++ [item]) portfolio_X) ∧
    item = None.
Proof.
  assert (Ht : SignalEvent.type (signal_X "EXIT" 0) = "SIGNAL") by reflexivity.
  assert (Hp : current_positions portfolio_X
                 !! SignalEvent.symbol (signal_X "EXIT" 0) = Some 0)
    by (vm_compute; reflexivity).
  split; [exact Ht|]. split; [exact Hp|].
  destruct (update_signal_puts_one_item (signal_X "EXIT" 0) portfolio_X 0 Ht Hp)
    as (item & Hrun & _ & Hexit & _).
  exists item. split; [exact Hrun|].
  apply Hexit. split; reflexivity.
Defined.

(** C9, as the specification words it, fails: a LONG signal of type SIGNAL
    for ["Y"], a symbol without a position in the portfolio of scenario A,
    makes [update_signal] raise [KeyError], and the event queue is left
    as it was, without the one item the claim asks for. *)
Lemma update_signal_unknown_symbol_queues_nothing :
  SignalEvent.type signal_Y = "SIGNAL" ∧
  fst (update_signal (SignalEv signal_Y) portfolio_X) = Raise (KeyError "Y") ∧
  events (snd (update_signal (SignalEv signal_Y) portfolio_X))
  = events portfolio_X ∧
  ∀ item : option Order,
    events (snd (update_signal (SignalEv signal_Y) portfolio_X))
    ≠ (events portfolio_X ++ [item])%list.
Proof.
  split; [reflexivity|].
  split; [vm_compute; reflexivity|].
  split; [vm_compute; reflexivity|].
  intros item Hqueue.
  apply (f_equal length) in Hqueue. rewrite length_app in Hqueue.
  vm_compute in Hqueue. discriminate Hqueue.
Qed.

(** ** Fills *)

Section Fills.
Context {C : Collaborators}.

Lemma update_positions_from_fill_run (fill : FillEvent.t)
    (self : NaivePortfolio) (position : Z) :
  current_positions self !! FillEvent.symbol fill = Some position →
  update_positions_from_fill fill self =
    (Ok tt,
     set_current_positions
       (<[FillEvent.symbol fill :=
            position + sign (FillEvent.direction fill) * FillEvent.quantity fill]>
          (current_positions self))
       self).
Proof.
  intros Hpos. unfold update_positions_from_fill.
  pose proof (fill_dir_sign (FillEvent.direction fill)) as Hdir.
  cbv zeta in Hdir |- *. rewrite Hdir.
  unfold bind, get, lift, modify.
  rewrite (getitem_Some _ _ _ Hpos). reflexivity.
Qed.

Lemma update_positions_from_fill_unknown_symbol (fill : FillEvent.t)
    (self : NaivePortfolio) :
  current_positions self !! FillEvent.symbol fill = None →
  update_positions_from_fill fill self =
    (Raise (KeyError (FillEvent.symbol fill)), self).
Proof.
  intros Hpos. unfold update_positions_from_fill, bind, get, lift.
  rewrite (getitem_None _ _ Hpos). reflexivity.
Qed.

Lemma update_holding_run (key : string) (f : Qc → Qc)
    (self : NaivePortfolio) (v : Qc) :
  current_holdings self !! key = Some v →
  update_holding key f self =
    (Ok tt,
     set_current_holdings (<[key := f v]> (current_holdings self)) self).
Proof.
  intros Hkey. unfold update_holding, bind, get, lift, modify.
  rewrite (getitem_Some _ _ _ Hkey). reflexivity.
Qed.

(** The amount a fill is booked at: the signed quantity at the latest
    close of the instrument. *)
Lemma cost_at_latest_close (direction : string) (close : Qc) (quantity : Z) :
  (Qz (sign direction) * close * Qz quantity)%Qc
  = (Qz (sign direction * quantity) * close)%Qc.
Proof. rewrite Qz_mul. ring. Qed.

(** The four writes of [update_holdings_from_fill], one after the other. *)
Lemma update_holdings_from_fill_run (bars : DataHandler.t)
    (fill : FillEvent.t) (self : NaivePortfolio) (v1 v2 v3 v4 : Qc) :
  let cost :=
    (Qz (sign (FillEvent.direction fill) * FillEvent.quantity fill)
     * DataHandler.get_latest_bar_value bars (FillEvent.symbol fill) "close")%Qc in
  let h0 := current_holdings self in
  let h1 := <[FillEvent.symbol fill := (v1 + cost)%Qc]> h0 in
  let h2 := <["commission" := (v2 + FillEvent.commission fill)%Qc]> h1 in
  let h3 := <["cash" := (v3 - (cost + FillEvent.commission fill))%Qc]> h2 in
  let h4 := <["total" := (v4 - (cost + FillEvent.commission fill))%Qc]> h3 in
  h0 !! FillEvent.symbol fill = Some v1 →
  h1 !! "commission" = Some v2 →
  h2 !! "cash" = Some v3 →
  h3 !! "total" = Some v4 →
  update_holdings_from_fill bars fill self
    = (Ok tt, set_current_holdings h4 self).
Proof.
  intros cost h0 h1 h2 h3 h4 H1 H2 H3 H4.
  unfold update_holdings_from_fill.
  pose proof (fill_dir_sign (FillEvent.direction fill)) as Hdir.
  cbv zeta in Hdir |- *. rewrite Hdir.
  rewrite cost_at_latest_close. fold cost.
  unfold bind.
  rewrite (update_holding_run _ _ self v1 H1).
  rewrite (update_holding_run "commission" _ (set_current_holdings h1 self) v2 H2).
  rewrite (update_holding_run "cash" _ (set_current_holdings h2 self) v3 H3).
  rewrite (update_holding_run "total" _ (set_current_holdings h3 self) v4 H4).
  reflexivity.
Qed.

(** With the four entries in place the holdings update goes through, and
    no entry of the record is lost. *)
Lemma update_holdings_from_fill_ok (bars : DataHandler.t)
    (fill : FillEvent.t) (self : NaivePortfolio) :
  (∀ k, k ∈ FillEvent.symbol fill :: ledger_keys →
        is_Some (current_holdings self !! k)) →
  ∃ h : gmap string Qc,
    update_holdings_from_fill bars fill self
      = (Ok tt, set_current_holdings h self) ∧
    (∀ k, is_Some (current_holdings self !! k) → is_Some (h !! k)).
Proof.
  intros Hkeys.
  set (cost :=
    (Qz (sign (FillEvent.direction fill) * FillEvent.quantity fill)
     * DataHandler.get_latest_bar_value bars (FillEvent.symbol fill) "close")%Qc).
  destruct (Hkeys (FillEvent.symbol fill)) as [v1 H1]; [set_solver|].
  set (h1 := <[FillEvent.symbol fill := (v1 + cost)%Qc]> (current_holdings self)).
  assert (Hk1 : ∀ k, is_Some (current_holdings self !! k) → is_Some (h1 !! k)).
  { intros k Hk. apply lookup_insert_is_Some'. by right. }
  destruct (Hk1 "commission") as [v2 H2]; [apply Hkeys; set_solver|].
  set (h2 := <["commission" := (v2 + FillEvent.commission fill)%Qc]> h1).
  assert (Hk2 : ∀ k, is_Some (current_holdings self !! k) → is_Some (h2 !! k)).
  { intros k Hk. apply lookup_insert_is_Some'. right. by apply Hk1. }
  destruct (Hk2 "cash") as [v3 H3]; [apply Hkeys; set_solver|].
  set (h3 := <["cash" := (v3 - (cost + FillEvent.commission fill))%Qc]> h2).
  assert (Hk3 : ∀ k, is_Some (current_holdings self !! k) → is_Some (h3 !! k)).
  { intros k Hk. apply lookup_insert_is_Some'. right. by apply Hk2. }
  destruct (Hk3 "total") as [v4 H4]; [apply Hkeys; set_solver|].
  exists (<["total" := (v4 - (cost + FillEvent.commission fill))%Qc]> h3).
  split.
  - exact (update_holdings_from_fill_run bars fill self v1 v2 v3 v4 H1 H2 H3 H4).
  - intros k Hk. apply lookup_insert_is_Some'. right. by apply Hk3.
Qed.

(** A fill event of type FILL whose symbol is known to both ledgers is
    applied without raising: the position moves by the signed quantity and
    the holdings keep their entries. *)
Lemma update_fill_ok (bars : DataHandler.t) (fill : FillEvent.t)
    (self : NaivePortfolio) (position : Z) :
  FillEvent.type fill = "FILL" →
  current_positions self !! FillEvent.symbol fill = Some position →
  (∀ k, k ∈ FillEvent.symbol fill :: ledger_keys →
        is_Some (current_holdings self !! k)) →
  ∃ self' : NaivePortfolio,
    update_fill bars (FillEv fill) self = (Ok tt, self') ∧
    current_positions self' =
      <[FillEvent.symbol fill :=
          position + sign (FillEvent.direction fill) * FillEvent.quantity fill]>
        (current_positions self) ∧
    (∀ k, is_Some (current_holdings self !! k) →
          is_Some (current_holdings self' !! k)).
Proof.
  intros Htype Hpos Hkeys.
  unfold update_fill. cbn [event_type]. rewrite Htype.
  cbn [String.eqb Ascii.eqb Bool.eqb].
  unfold bind at 1. rewrite (update_positions_from_fill_run _ _ _ Hpos).
  set (self1 := set_current_positions _ self).
  destruct (update_holdings_from_fill_ok bars fill self1) as (h & Hrun & Hh).
  { exact Hkeys. }
  unfold bind at 1. rewrite Hrun.
  eexists. split; [reflexivity|].
  split; [reflexivity|]. exact Hh.
Qed.

(** The same event, with the portfolio it leaves behind written out. *)
Lemma update_fill_run (bars : DataHandler.t) (fill : FillEvent.t)
    (self : NaivePortfolio) (position : Z) (v1 v2 v3 v4 : Qc) :
  let cost :=
    (Qz (sign (FillEvent.direction fill) * FillEvent.quantity fill)
     * DataHandler.get_latest_bar_value bars (FillEvent.symbol fill) "close")%Qc in
  let h0 := current_holdings self in
  let h1 := <[FillEvent.symbol fill := (v1 + cost)%Qc]> h0 in
  let h2 := <["commission" := (v2 + FillEvent.commission fill)%Qc]> h1 in
  let h3 := <["cash" := (v3 - (cost + FillEvent.commission fill))%Qc]> h2 in
  let h4 := <["total" := (v4 - (cost + FillEvent.commission fill))%Qc]> h3 in
  FillEvent.type fill = "FILL" →
  current_positions self !! FillEvent.symbol fill = Some position →
  h0 !! FillEvent.symbol fill = Some v1 →
  h1 !! "commission" = Some v2 →
  h2 !! "cash" = Some v3 →
  h3 !! "total" = Some v4 →
  ∃ self' : NaivePortfolio,
    update_fill bars (FillEv fill) self = (Ok tt, self') ∧
    current_positions self' =
      <[FillEvent.symbol fill :=
          position + sign (FillEvent.direction fill) * FillEvent.quantity fill]>
        (current_positions self) ∧
    current_holdings self' = h4 ∧
    all_orders self' =
      <[order_id (FillEvent.order fill) := FillEvent.order fill]>
        (all_orders self) ∧
    length (all_fills self') = S (length (all_fills self)).
Proof.
  intros cost h0 h1 h2 h3 h4 Htype Hpos H1 H2 H3 H4.
  unfold update_fill. cbn [event_type]. rewrite Htype.
  cbn [String.eqb Ascii.eqb Bool.eqb].
  unfold bind at 1. rewrite (update_positions_from_fill_run _ _ _ Hpos).
  set (self1 := set_current_positions _ self).
  unfold bind at 1.
  rewrite (update_holdings_from_fill_run bars fill self1 v1 v2 v3 v4 H1 H2 H3 H4).
  eexists. split; [reflexivity|].
  cbn. rewrite length_app. cbn.
  repeat split; try reflexivity. lia.
Qed.

(** When the symbol of the fill is none of the ledger keys, the four
    writes land on four different entries. *)
Lemma holdings_entries_apart (h0 : gmap string Qc) (s : string)
    (x1 x2 x3 x4 : Qc) :
  s ∉ ledger_keys →
  let h1 := <[s := x1]> h0 in
  let h2 := <["commission" := x2]> h1 in
  let h3 := <["cash" := x3]> h2 in
  let h4 := <["total" := x4]> h3 in
  h1 !! "commission" = h0 !! "commission" ∧
  h2 !! "cash" = h0 !! "cash" ∧
  h3 !! "total" = h0 !! "total" ∧
  h4 !! s = Some x1 ∧
  h4 !! "commission" = Some x2 ∧
  h4 !! "cash" = Some x3 ∧
  h4 !! "total" = Some x4.
Proof.
  intros Hs. unfold ledger_keys in Hs.
  assert (s ≠ "cash") by set_solver.
  assert (s ≠ "commission") by set_solver.
  assert (s ≠ "total") by set_solver.
  cbv zeta. repeat split; by simplify_map_eq.
Qed.

(** Positions after a run of fills on one instrument. *)
Lemma update_fills_position (bars : DataHandler.t) (s : string)
    (fills : list FillEvent.t) :
  ∀ (self : NaivePortfolio) (position : Z),
    Forall (λ fill, FillEvent.type fill = "FILL" ∧ FillEvent.symbol fill = s)
      fills →
    current_positions self !! s = Some position →
    (∀ k, k ∈ s :: ledger_keys → is_Some (current_holdings self !! k)) →
    ∃ self' : NaivePortfolio,
      update_fills bars (FillEv <$> fills) self = (Ok tt, self') ∧
      current_positions self' !! s = Some (position + signed_quantities fills).
Proof.
  induction fills as [|fill fills IH]; intros self position Hall Hpos Hkeys.
  - exists self. split; [reflexivity|].
    cbn. rewrite Z.add_0_r. exact Hpos.
  - apply Forall_cons in Hall as [[Htype Hsym] Hall]. subst s.
    destruct (update_fill_ok bars fill self position Htype Hpos Hkeys)
      as (self1 & Hrun & Hpos1 & Hkeys1).
    destruct (IH self1
                (position + sign (FillEvent.direction fill)
                            * FillEvent.quantity fill)) as (self' & Hrest & Hfinal).
    + exact Hall.
    + rewrite Hpos1. apply lookup_insert_eq.
    + intros k Hk. apply Hkeys1, Hkeys, Hk.
    + exists self'. split.
      * unfold update_fills in *. cbn [fmap list_fmap for_each].
        unfold bind at 1. rewrite Hrun. exact Hrest.
      * rewrite Hfinal. f_equal. unfold signed_quantities. cbn [foldr]. lia.
Qed.

(** C4. Fills on one instrument, applied from a position of zero, leave
    the position at the sum of their signed quantities, [+quantity] for a
    BUY and [-quantity] for a SELL; a BUY followed by a SELL of the same
    quantity leaves it at zero. *)
Theorem update_fills_position_is_sum (bars : DataHandler.t) (s : string)
    (fills : list FillEvent.t) (self : NaivePortfolio) :
  Forall (λ fill, FillEvent.type fill = "FILL" ∧ FillEvent.symbol fill = s ∧
                  (FillEvent.direction fill = "BUY" ∨
                   FillEvent.direction fill = "SELL")) fills →
  current_positions self !! s = Some 0 →
  (∀ k, k ∈ s :: ledger_keys → is_Some (current_holdings self !! k)) →
  ∃ self' : NaivePortfolio,
    update_fills bars (FillEv <$> fills) self = (Ok tt, self') ∧
    current_positions self' !! s = Some (signed_quantities fills) ∧
    (∀ buy sell : FillEvent.t,
       fills = [buy; sell] →
       FillEvent.direction buy = "BUY" →
       FillEvent.direction sell = "SELL" →
       FillEvent.quantity buy = FillEvent.quantity sell →
       current_positions self' !! s = Some 0).
Proof.
  intros Hall Hpos Hkeys.
  destruct (update_fills_position bars s fills self 0) as (self' & Hrun & Hfinal).
  - eapply Forall_impl; [exact Hall|]. cbn. tauto.
  - exact Hpos.
  - exact Hkeys.
  - exists self'. rewrite Z.add_0_l in Hfinal.
    split; [exact Hrun|]. split; [exact Hfinal|].
    intros buy sell -> Hbuy Hsell Hq. rewrite Hfinal. f_equal.
    unfold signed_quantities. cbn [foldr].
    rewrite Hbuy, Hsell, sign_BUY, sign_SELL. lia.
Qed.

(** C1, as the code has it. A fill whose symbol is an instrument of the
    holdings is booked at the latest close of the instrument, not at the
    price the fill carries: the holdings value of the instrument grows by
    [sign * quantity * close], the commission by the fill's commission,
    and cash and total each fall by [sign * quantity * close + commission],
    with [sign] being [+1] for a BUY and [-1] for a SELL. *)
Theorem update_holdings_from_fill_books_latest_close (bars : DataHandler.t)
    (fill : FillEvent.t) (self : NaivePortfolio) :
  FillEvent.direction fill = "BUY" ∨ FillEvent.direction fill = "SELL" →
  FillEvent.symbol fill ∉ ledger_keys →
  (∀ k, k ∈ FillEvent.symbol fill :: ledger_keys →
        is_Some (current_holdings self !! k)) →
  ∃ self' : NaivePortfolio,
    update_holdings_from_fill bars fill self = (Ok tt, self') ∧
    holdings_updated_at_latest_close bars fill
      (current_holdings self) (current_holdings self').
Proof.
  intros _ Hsym Hkeys.
  destruct (Hkeys (FillEvent.symbol fill)) as [v Hv]; [set_solver|].
  destruct (Hkeys "commission") as [k Hk]; [set_solver|].
  destruct (Hkeys "cash") as [c Hc]; [set_solver|].
  destruct (Hkeys "total") as [t Ht]; [set_solver|].
  set (cost :=
    (Qz (sign (FillEvent.direction fill) * FillEvent.quantity fill)
     * DataHandler.get_latest_bar_value bars (FillEvent.symbol fill) "close")%Qc).
  destruct (holdings_entries_apart (current_holdings self)
              (FillEvent.symbol fill) (v + cost)%Qc
              (k + FillEvent.commission fill)%Qc
              (c - (cost + FillEvent.commission fill))%Qc
              (t - (cost + FillEvent.commission fill))%Qc Hsym)
    as (E1 & E2 & E3 & L1 & L2 & L3 & L4).
  eexists. split.
  - apply (update_holdings_from_fill_run bars fill self v k c t).
    + exact Hv.
    + exact (eq_trans E1 Hk).
    + exact (eq_trans E2 Hc).
    + exact (eq_trans E3 Ht).
  - exists v, k, c, t. cbn [current_holdings set_current_holdings].
    repeat split; assumption.
Qed.

(** C10, as the code has it. A fill event of type FILL whose direction is
    neither BUY nor SELL, for an instrument that both ledgers know, is
    applied without raising: the positions and the holdings value of the
    instrument stay as they were, the commission grows by the fill's
    commission, and cash and total each fall by it. *)
Theorem update_fill_other_direction (bars : DataHandler.t)
    (fill : FillEvent.t) (self : NaivePortfolio)
    (position : Z) (value commission cash total : Qc) :
  FillEvent.type fill = "FILL" →
  FillEvent.direction fill ≠ "BUY" →
  FillEvent.direction fill ≠ "SELL" →
  FillEvent.symbol fill ∉ ledger_keys →
  current_positions self !! FillEvent.symbol fill = Some position →
  current_holdings self !! FillEvent.symbol fill = Some value →
  current_holdings self !! "commission" = Some commission →
  current_holdings self !! "cash" = Some cash →
  current_holdings self !! "total" = Some total →
  ∃ self' : NaivePortfolio,
    update_fill bars (FillEv fill) self = (Ok tt, self') ∧
    current_positions self' = current_positions self ∧
    current_holdings self' !! FillEvent.symbol fill = Some value ∧
    current_holdings self' !! "commission"
      = Some (commission + FillEvent.commission fill)%Qc ∧
    current_holdings self' !! "cash"
      = Some (cash - FillEvent.commission fill)%Qc ∧
    current_holdings self' !! "total"
      = Some (total - FillEvent.commission fill)%Qc.
Proof.
  intros Htype Hbuy Hsell Hsym Hpos Hv Hk Hc Ht.
  set (cost :=
    (Qz (sign (FillEvent.direction fill) * FillEvent.quantity fill)
     * DataHandler.get_latest_bar_value bars (FillEvent.symbol fill) "close")%Qc).
  assert (Hcost : cost = 0%Qc).
  { unfold cost. rewrite (sign_other _ Hbuy Hsell), Z.mul_0_l, Qz_0. ring. }
  destruct (holdings_entries_apart (current_holdings self)
              (FillEvent.symbol fill) (value + cost)%Qc
              (commission + FillEvent.commission fill)%Qc
              (cash - (cost + FillEvent.commission fill))%Qc
              (total - (cost + FillEvent.commission fill))%Qc Hsym)
    as (E1 & E2 & E3 & L1 & L2 & L3 & L4).
  destruct (update_fill_run bars fill self position value commission cash total)
    as (self' & Hrun & Hpos' & Hhold' & _); try assumption.
  - exact (eq_trans E1 Hk).
  - exact (eq_trans E2 Hc).
  - exact (eq_trans E3 Ht).
  - exists self'. split; [exact Hrun|].
    rewrite Hhold'. fold cost.
    split; [|split; [|split; [|split]]].
    + rewrite Hpos', (sign_other _ Hbuy Hsell), Z.mul_0_l, Z.add_0_r.
      apply insert_id, Hpos.
    + rewrite L1. f_equal. rewrite Hcost. ring.
    + exact L2.
    + rewrite L3. f_equal. rewrite Hcost. ring.
    + rewrite L4. f_equal. rewrite Hcost. ring.
Qed.

End Fills.

(** The initial portfolio of scenario A has the four entries a fill on
    ["X"] writes to. *)
Lemma portfolio_X_entries (k : string) :
  k ∈ "X" :: ledger_keys → is_Some (current_holdings portfolio_X !! k).
Proof.
  intros Hk. unfold ledger_keys in Hk.
  repeat (apply elem_of_cons in Hk as [->|Hk]);
    [ | | | | by apply elem_of_nil in Hk ];
    vm_compute; eexists; reflexivity.
Qed.

Lemma update_fills_position_is_sum_witness :
  let fills := [fill_X "BUY" 10 50; fill_X "SELL" 10 50] in
  current_positions portfolio_X !! "X" = Some 0 ∧
  ∃ self' : NaivePortfolio,
    update_fills (bars_X 50) (FillEv <$> fills) portfolio_X = (Ok tt, self') ∧
    current_positions self' !! "X" = Some 0.
Proof.
  intros fills.
  assert (Hpos : current_positions portfolio_X !! "X" = Some 0)
    by (vm_compute; reflexivity).
  assert (Hall : Forall (λ fill : FillEvent.t,
                   FillEvent.type fill = "FILL" ∧ FillEvent.symbol fill = "X" ∧
                   (FillEvent.direction fill = "BUY" ∨
                    FillEvent.direction fill = "SELL")) fills).
  { constructor; [split; [reflexivity|split; [reflexivity|left; reflexivity]]|].
    constructor; [split; [reflexivity|split; [reflexivity|right; reflexivity]]|].
    constructor. }
  split; [exact Hpos|].
  destruct (update_fills_position_is_sum (bars_X 50) "X" fills portfolio_X
              Hall Hpos portfolio_X_entries) as (self' & Hrun & Hsum & _).
  exists self'. split; [exact Hrun|exact Hsum].
Defined.

Lemma update_holdings_from_fill_books_latest_close_witness :
  let fill := fill_X "BUY" 10 60 in
  (FillEvent.symbol fill ∉ ledger_keys) ∧
  (FillEvent.direction fill = "BUY" ∨ FillEvent.direction fill = "SELL") ∧
  ∃ self' : NaivePortfolio,
    update_holdings_from_fill (bars_X 50) fill portfolio_X = (Ok tt, self') ∧
    holdings_updated_at_latest_close (bars_X 50) fill
      (current_holdings portfolio_X) (current_holdings self').
Proof.
  intros fill.
  assert (Hdir : FillEvent.direction fill = "BUY" ∨
                 FillEvent.direction fill = "SELL") by (left; reflexivity).
  assert (Hsym : FillEvent.symbol fill ∉ ledger_keys).
  { unfold ledger_keys. cbn. intros Hin.
    repeat (apply elem_of_cons in Hin as [Hin|Hin]; [discriminate Hin|]).
    by apply elem_of_nil in Hin. }
  split; [exact Hsym|]. split; [exact Hdir|].
  exact (update_holdings_from_fill_books_latest_close (bars_X 50) fill
           portfolio_X Hdir Hsym portfolio_X_entries).
Defined.

(** C1, as the specification words it, fails: a BUY of 10 units that
    carries the price 60 while the latest close is 50 is booked at 500,
    not at 600. *)
Lemma update_holdings_from_fill_ignores_fill_price :
  let fill := fill_X "BUY" 10 60 in
  let self' := snd (update_holdings_from_fill (bars_X 50) fill portfolio_X) in
  fst (update_holdings_from_fill (bars_X 50) fill portfolio_X) = Ok tt ∧
  current_holdings self' !! "X" = Some (Qz 500) ∧
  current_holdings self' !! "cash" = Some (Qz 99499) ∧
  ¬ holdings_updated_at_fill_price fill
      (current_holdings portfolio_X) (current_holdings self').
Proof.
  cbv zeta. split; [vm_compute; reflexivity|].
  split; [vm_compute; reflexivity|].
  split; [vm_compute; reflexivity|].
  intros (v & k & c & t & Hv & _ & _ & _ & Hv' & _).
  vm_compute in Hv. injection Hv as <-.
  vm_compute in Hv'. discriminate Hv'.
Qed.

Lemma update_fill_other_direction_witness :
  let fill := fill_X "HOLD" 10 50 in
  FillEvent.type fill = "FILL" ∧
  FillEvent.direction fill ≠ "BUY" ∧
  FillEvent.direction fill ≠ "SELL" ∧
  ∃ self' : NaivePortfolio,
    update_fill (bars_X 50) (FillEv fill) portfolio_X = (Ok tt, self') ∧
    current_positions self' = current_positions portfolio_X ∧
    current_holdings self' !! "X" = Some 0%Qc ∧
    current_holdings self' !! "commission" = Some (0 + Qz 1)%Qc ∧
    current_holdings self' !! "cash" = Some (Qz 100000 - Qz 1)%Qc ∧
    current_holdings self' !! "total" = Some (Qz 100000 - Qz 1)%Qc.
Proof.
  intros fill.
  assert (Htype : FillEvent.type fill = "FILL") by reflexivity.
  assert (Hbuy : FillEvent.direction fill ≠ "BUY") by discriminate.
  assert (Hsell : FillEvent.direction fill ≠ "SELL") by discriminate.
  assert (Hsym : FillEvent.symbol fill ∉ ledger_keys).
  { unfold ledger_keys. cbn. intros Hin.
    repeat (apply elem_of_cons in Hin as [Hin|Hin]; [discriminate Hin|]).
    by apply elem_of_nil in Hin. }
  split; [exact Htype|]. split; [exact Hbuy|]. split; [exact Hsell|].
  apply (update_fill_other_direction (bars_X 50) fill portfolio_X 0
           0%Qc 0%Qc (Qz 100000) (Qz 100000) Htype Hbuy Hsell Hsym);
    vm_compute; reflexivity.
Defined.

(** C10, as the specification words it, fails: a fill of type FILL with
    the direction HOLD for ["Y"], a symbol without a position in the
    portfolio of scenario A, makes [update_fill] raise [KeyError], and
    the commission, the cash and the total stay as they were instead of
    moving by the commission of the fill. *)
Lemma update_fill_other_direction_unknown_symbol :
  FillEvent.type fill_Y_hold = "FILL" ∧
  FillEvent.direction fill_Y_hold ≠ "BUY" ∧
  FillEvent.direction fill_Y_hold ≠ "SELL" ∧
  FillEvent.commission fill_Y_hold = Qz 1 ∧
  fst (update_fill (bars_X 50) (FillEv fill_Y_hold) portfolio_X)
  = Raise (KeyError "Y") ∧
  current_holdings (snd (update_fill (bars_X 50) (FillEv fill_Y_hold) portfolio_X))
    !! "commission" = Some 0%Qc ∧
  current_holdings (snd (update_fill (bars_X 50) (FillEv fill_Y_hold) portfolio_X))
    !! "cash" = Some (Qz 100000) ∧
  current_holdings (snd (update_fill (bars_X 50) (FillEv fill_Y_hold) portfolio_X))
    !! "total" = Some (Qz 100000).
Proof.
  split; [reflexivity|].
  split; [discriminate|].
  split; [discriminate|].
  split; [reflexivity|].
  repeat split; vm_compute; reflexivity.
Qed.

(** ** Bar snapshots *)

Section Snapshots.
Context {C : Collaborators}.

(** The first loop copies the positions and leaves the portfolio alone. *)
Lemma copy_positions_run (symbols : list string) (self : NaivePortfolio) :
  (∀ s, s ∈ symbols → is_Some (current_positions self !! s)) →
  ∀ dp : gmap string Z,
    ∃ dp' : gmap string Z,
      for_local symbols dp copy_position self = (Ok dp', self) ∧
      (∀ s, s ∈ symbols → dp' !! s = current_positions self !! s) ∧
      (∀ k, k ∉ symbols → dp' !! k = dp !! k).
Proof.
  induction symbols as [|s symbols IH]; intros Hknown dp.
  - exists dp. split; [reflexivity|]. split; [|reflexivity].
    intros s Hs. by apply elem_of_nil in Hs.
  - destruct (Hknown s) as [p Hp]; [set_solver|].
    destruct (IH (λ s' Hs', Hknown s' (list_elem_of_further _ _ _ Hs'))
                (<[s := p]> dp)) as (dp' & Hrun & Hin & Hout).
    exists dp'. split; [|split].
    + cbn [for_local]. unfold bind at 1, copy_position at 1.
      unfold bind, get, lift, ret. rewrite (getitem_Some _ _ _ Hp).
      exact Hrun.
    + intros s' Hs'. destruct (decide (s' ∈ symbols)) as [Hmem|Hmem].
      * by apply Hin.
      * apply elem_of_cons in Hs' as [->|Hs']; [|contradiction].
        rewrite (Hout _ Hmem), lookup_insert_eq. by rewrite Hp.
    + intros k Hk. apply not_elem_of_cons in Hk as [Hne Hk].
      rewrite (Hout _ Hk). by apply lookup_insert_ne.
Qed.

(** The second loop: every instrument gets its position at the latest
    close, and the total grows by the sum of these values. *)
Lemma mark_to_market_run (bars : DataHandler.t) (symbols : list string)
    (self : NaivePortfolio) :
  (∀ s, s ∈ symbols → is_Some (current_positions self !! s)) →
  "total" ∉ symbols →
  ∀ (dh : gmap string Qc) (total : Qc),
    dh !! "total" = Some total →
    ∃ (dh' : gmap string Qc) (values : list Qc),
      for_local symbols dh (mark_to_market bars) self = (Ok dh', self) ∧
      Forall2 (λ s v, ∃ p, current_positions self !! s = Some p ∧
                 v = (Qz p * DataHandler.get_latest_bar_value bars s "close")%Qc)
        symbols values ∧
      (∀ s p, s ∈ symbols → current_positions self !! s = Some p →
              dh' !! s
              = Some (Qz p * DataHandler.get_latest_bar_value bars s "close")%Qc) ∧
      dh' !! "total" = Some (total + Qc_sum values)%Qc ∧
      (∀ k, k ∉ symbols → k ≠ "total" → dh' !! k = dh !! k).
Proof.
  induction symbols as [|s symbols IH]; intros Hknown Htotal dh total Hdh.
  - exists dh, []. split; [reflexivity|].
    split; [constructor|]. split; [|split].
    + intros s p Hs. by apply elem_of_nil in Hs.
    + rewrite Hdh. f_equal. unfold Qc_sum. cbn. ring.
    + reflexivity.
  - apply not_elem_of_cons in Htotal as [Hne Htotal].
    destruct (Hknown s) as [p Hp]; [set_solver|].
    set (value := (Qz p * DataHandler.get_latest_bar_value bars s "close")%Qc).
    set (dh1 := <["total" := (total + value)%Qc]> (<[s := value]> dh)).
    destruct (IH (λ s' Hs', Hknown s' (list_elem_of_further _ _ _ Hs'))
                Htotal dh1 (total + value)%Qc)
      as (dh' & values & Hrun & Hvalues & Hin & Hsum & Hout).
    { unfold dh1. apply lookup_insert_eq. }
    exists dh', (value :: values). split; [|split; [|split; [|split]]].
    + cbn [for_local]. unfold bind at 1, mark_to_market at 1.
      unfold bind, get, lift, ret. rewrite (getitem_Some _ _ _ Hp).
      fold value.
      assert (Hread : <[s := value]> dh !! "total" = Some total).
      { rewrite lookup_insert_ne by congruence. exact Hdh. }
      rewrite (getitem_Some _ _ _ Hread). exact Hrun.
    + constructor; [|exact Hvalues]. exists p. split; [exact Hp|reflexivity].
    + intros s' p' Hs' Hp'. destruct (decide (s' ∈ symbols)) as [Hmem|Hmem].
      * by apply Hin.
      * apply elem_of_cons in Hs' as [->|Hs']; [|contradiction].
        rewrite (Hout _ Hmem) by congruence.
        unfold dh1. rewrite lookup_insert_ne by congruence.
        rewrite lookup_insert_eq. unfold value. congruence.
    + rewrite Hsum. f_equal. rewrite Qc_sum_cons. ring.
    + intros k Hk Hkt. apply not_elem_of_cons in Hk as [Hks Hk].
      rewrite (Hout _ Hk Hkt). unfold dh1.
      rewrite lookup_insert_ne by congruence.
      by apply lookup_insert_ne.
Qed.

(** C3. The holdings record that [update_timeindex] appends has a total
    equal to its cash plus the sum, over the instruments, of the values
    stored for them in the record, each of which is the position of the
    instrument times its latest close.  The total is reached by adding the
    values to the cash one after the other, in the order of the symbol
    list.  The symbols are taken to be instruments: none of them is called
    ["cash"] or ["total"]. *)
Theorem update_timeindex_total_is_cash_plus_values (bars : DataHandler.t)
    (event : Event) (self : NaivePortfolio) :
  symbol_list self ≠ [] →
  (∀ s, s ∈ symbol_list self → is_Some (current_positions self !! s)) →
  is_Some (current_holdings self !! "cash") →
  is_Some (current_holdings self !! "commission") →
  "cash" ∉ symbol_list self →
  "total" ∉ symbol_list self →
  ∃ (self' : NaivePortfolio) (dh : gmap string Qc) (cash total : Qc)
    (values : list Qc),
    update_timeindex bars event self = (Ok tt, self') ∧
    all_holdings self' = (all_holdings self ++ [dh])%list ∧
    dh !! "cash" = Some cash ∧
    dh !! "total" = Some total ∧
    Forall2 (λ s v, dh !! s = Some v ∧
               ∃ p, current_positions self !! s = Some p ∧
                    v = (Qz p * DataHandler.get_latest_bar_value bars s "close")%Qc)
      (symbol_list self) values ∧
    total = fold_left Qcplus values cash ∧
    total = (cash + Qc_sum values)%Qc.
Proof.
  intros Hnonempty Hknown [cash Hcash] [commission Hcommission] Hc Ht.
  unfold update_timeindex. unfold bind at 1, get at 1.
  destruct (symbol_list self) as [|first symbols] eqn:Hsymbols; [done|].
  unfold bind at 1, lift at 1.
  set (dp0 := <["datetime" := _]> (dict _)).
  destruct (copy_positions_run (first :: symbols) self Hknown dp0)
    as (dp & Hdp & _).
  unfold bind at 1. rewrite Hdp.
  unfold bind at 1, get at 1. unfold bind at 1, modify at 1.
  set (self1 := set_all_positions _ self).
  unfold bind at 1, get at 1.
  change (current_holdings self1) with (current_holdings self).
  unfold bind at 1, lift at 1. rewrite (getitem_Some _ _ _ Hcash).
  unfold bind at 1, lift at 1. rewrite (getitem_Some _ _ _ Hcommission).
  unfold bind at 1, lift at 1.
  set (dh0 := <["total" := cash]> _).
  destruct (mark_to_market_run bars (first :: symbols) self1 Hknown Ht dh0 cash)
    as (dh & values & Hdh & Hvalues & Hstored & Hsum & Hframe).
  { unfold dh0. apply lookup_insert_eq. }
  unfold bind at 1. rewrite Hdh.
  unfold bind at 1, get at 1. unfold modify.
  eexists _, dh, cash, _, values.
  split; [reflexivity|]. split; [reflexivity|].
  split; [|split; [exact Hsum|split; [|split; [|reflexivity]]]].
  - rewrite (Hframe "cash" Hc) by discriminate.
    unfold dh0. rewrite lookup_insert_ne by discriminate.
    rewrite lookup_insert_ne by discriminate. apply lookup_insert_eq.
  - apply Forall2_same_length_lookup. split.
    + eapply Forall2_length, Hvalues.
    + intros i s v Hs Hv.
      destruct (Forall2_lookup_lr _ _ _ _ _ _ Hvalues Hs Hv) as (p & Hp & ->).
      split; [|by exists p].
      apply Hstored; [|exact Hp]. eapply list_elem_of_lookup_2, Hs.
  - symmetry. apply Qc_sum_from.
Qed.

End Snapshots.

Lemma update_timeindex_total_is_cash_plus_values_witness :
  symbol_list portfolio_X_long ≠ [] ∧
  ("cash" ∉ symbol_list portfolio_X_long) ∧
  ("total" ∉ symbol_list portfolio_X_long) ∧
  ∃ (self' : NaivePortfolio) (dh : gmap string Qc) (cash total : Qc)
    (values : list Qc),
    update_timeindex (bars_X 55) (OtherEv "MARKET") portfolio_X_long
      = (Ok tt, self') ∧
    all_holdings self' = (all_holdings portfolio_X_long ++ [dh])%list ∧
    dh !! "cash" = Some cash ∧
    dh !! "total" = Some total ∧
    Forall2 (λ s v, dh !! s = Some v ∧
               ∃ p, current_positions portfolio_X_long !! s = Some p ∧
                    v = (Qz p * DataHandler.get_latest_bar_value
                                  (bars_X 55) s "close")%Qc)
      (symbol_list portfolio_X_long) values ∧
    total = fold_left Qcplus values cash ∧
    total = (cash + Qc_sum values)%Qc.
Proof.
  assert (Hne : symbol_list portfolio_X_long ≠ []) by (vm_compute; discriminate).
  assert (Hknown : ∀ s, s ∈ symbol_list portfolio_X_long →
                        is_Some (current_positions portfolio_X_long !! s)).
  { intros s Hs. change (symbol_list portfolio_X_long) with ["X"] in Hs.
    apply list_elem_of_singleton in Hs as ->. vm_compute. eexists. reflexivity. }
  assert (Hcash : is_Some (current_holdings portfolio_X_long !! "cash"))
    by (vm_compute; eexists; reflexivity).
  assert (Hcom : is_Some (current_holdings portfolio_X_long !! "commission"))
    by (vm_compute; eexists; reflexivity).
  assert (Hc : "cash" ∉ symbol_list portfolio_X_long).
  { change (symbol_list portfolio_X_long) with ["X"].
    intros Hin. apply list_elem_of_singleton in Hin. discriminate Hin. }
  assert (Ht : "total" ∉ symbol_list portfolio_X_long).
  { change (symbol_list portfolio_X_long) with ["X"].
    intros Hin. apply list_elem_of_singleton in Hin. discriminate Hin. }
  split; [exact Hne|]. split; [exact Hc|]. split; [exact Ht|].
  exact (update_timeindex_total_is_cash_plus_values (bars_X 55)
           (OtherEv "MARKET") portfolio_X_long Hne Hknown Hcash Hcom Hc Ht).
Defined.

(** ** Scenarios *)

(** C7. Scenario A: with the single instrument ["X"] and an initial
    capital of 100000, a BUY fill of 10 units at a latest close of 50 with
    commission 1 leaves the position of ["X"] at 10 and the cash at 99499;
    the snapshot of the next bar, at a latest close of 55, values ["X"] at
    550 and has a total of 100049. *)
Theorem scenario_A_figures :
  fst scenario_A_fill = Ok tt ∧
  current_positions (snd scenario_A_fill) !! "X" = Some 10 ∧
  current_holdings (snd scenario_A_fill) !! "cash" = Some (Qz 99499) ∧
  fst scenario_A_bar = Ok tt ∧
  latest_snapshot (snd scenario_A_bar) "X" = Some (Qz 550) ∧
  latest_snapshot (snd scenario_A_bar) "total" = Some (Qz 100049).
Proof.
  repeat split; vm_compute; reflexivity.
Qed.

(** ** Reporting *)

Section Reporting.
Context {C : Collaborators}.

(** Without a row in the order table, [output_summary_stats] returns no
    statistics: whatever else holds of the portfolio, it raises. *)
Lemma output_summary_stats_needs_orders (self : NaivePortfolio) :
  order_history self = Some [] →
  ∀ stats : SummaryStats, fst (output_summary_stats self) ≠ Ok stats.
Proof.
  intros Hempty stats. unfold output_summary_stats.
  unfold bind at 1, get at 1.
  destruct (equity_curve self) as [curve|]; [|discriminate].
  unfold bind at 1, lift at 1.
  unfold bind at 1, lift at 1.
  destruct (last (ec_equity_curve curve)) as [total_return|]; [|discriminate].
  destruct (create_drawdowns (ec_equity_curve curve)) as [[drawdown max_dd] dd].
  unfold bind at 1, modify at 1.
  unfold bind at 1, get at 1. cbn [order_history set_equity_curve].
  rewrite Hempty.
  unfold bind at 1, lift at 1.
  unfold bind at 1, lift at 1. cbn [profit_column fst].
  discriminate.
Qed.

(** With an empty order registry the order table has no row. *)
Lemma create_order_history_dataframe_empty (self : NaivePortfolio) :
  all_orders self = ∅ →
  create_order_history_dataframe self
    = (Ok tt, set_order_history (Some []) self).
Proof.
  intros Hempty. unfold create_order_history_dataframe, bind, get, modify.
  rewrite Hempty, map_to_list_empty. reflexivity.
Qed.

End Reporting.

(** C2, on the code. Scenario C ends in an exception: with no order
    recorded, the order table has no [profit] column and the summary
    raises [KeyError] before it reports a trade count or a win rate. *)
Theorem scenario_C_raises :
  all_orders (snd scenario_C) = ∅ ∧
  order_history (snd scenario_C) = Some [] ∧
  fst scenario_C = Raise (KeyError "profit").
Proof.
  repeat split; vm_compute; reflexivity.
Qed.

(** ** The equity curve *)

Section EquityCurve.
Context {C : Collaborators}.

Lemma pct_change_from_defined (totals : list Qc) :
  ∀ prev : Qc,
    Forall (λ x, x ≠ 0%Qc) (prev :: totals) →
    pct_change_from (Some prev) (map Some totals)
    = map Some (simple_returns prev totals).
Proof.
  induction totals as [|total totals IH]; intros prev Hnz.
  - reflexivity.
  - apply Forall_cons in Hnz as [Hprev Hnz].
    cbn [map pct_change_from simple_returns pct].
    rewrite (bool_decide_eq_false_2 _ Hprev). f_equal.
    apply IH, Hnz.
Qed.

Lemma simple_returns_lookup (totals : list Qc) :
  ∀ (prev : Qc) (t : nat) (before cur : Qc),
    (prev :: totals) !! t = Some before →
    totals !! t = Some cur →
    simple_returns prev totals !! t = Some (cur / before - 1)%Qc.
Proof.
  induction totals as [|total totals IH]; intros prev t before cur Hb Hc.
  - destruct t; discriminate Hc.
  - destruct t as [|t].
    + cbn in Hb, Hc. injection Hb as <-. injection Hc as <-. reflexivity.
    + cbn [simple_returns]. cbn in Hb, Hc |- *. by apply IH.
Qed.

Lemma lookup_map_Some {A B : Type} (f : A → B) (l : list A) :
  ∀ (t : nat) (x : A), l !! t = Some x → map f l !! t = Some (f x).
Proof.
  induction l as [|y l IH]; intros [|t] x Hx; try discriminate Hx.
  - cbn in Hx |- *. congruence.
  - cbn in Hx |- *. by apply IH.
Qed.

Lemma simple_returns_length (totals : list Qc) :
  ∀ prev : Qc, length (simple_returns prev totals) = length totals.
Proof.
  induction totals as [|total totals IH]; intros prev; [reflexivity|].
  cbn. f_equal. apply IH.
Qed.

Lemma cumprod_from_defined (xs : list Qc) :
  ∀ (acc : Qc) (t : nat),
    (t < length xs)%nat →
    cumprod_from acc (map Some xs) !! t
    = Some (Some (fold_left Qcmult (take (S t) xs) acc)).
Proof.
  induction xs as [|x xs IH]; intros acc t Ht.
  - cbn in Ht. lia.
  - destruct t as [|t].
    + reflexivity.
    + cbn [map cumprod_from]. cbn in Ht |- *.
      apply IH. lia.
Qed.

Lemma defined_growth_defined (rs : list Qc) :
  defined_growth (map Some rs) = map (λ r, (1 + r)%Qc) rs.
Proof.
  unfold defined_growth.
  induction rs as [|r rs IH]; [reflexivity|].
  cbn. f_equal. exact IH.
Qed.

Lemma one_plus_defined (rs : list Qc) :
  one_plus (map Some rs) = map Some (map (λ r, (1 + r)%Qc) rs).
Proof.
  unfold one_plus.
  induction rs as [|r rs IH]; [reflexivity|].
  cbn. f_equal. exact IH.
Qed.

(** The columns [returns] and [equity_curve] over totals that are all
    present and not zero. *)
Lemma equity_columns (first : Qc) (totals : list Qc) :
  Forall (λ x, x ≠ 0%Qc) (first :: totals) →
  let returns := pct_change (map Some (first :: totals)) in
  let curve := cumprod (one_plus returns) in
  returns = None :: map Some (simple_returns first totals) ∧
  curve !! 0%nat = Some None ∧
  (∀ t, (t < length totals)%nat →
        curve !! S t = Some (Some (product_of_defined returns (S t)))).
Proof.
  intros Hnz returns curve.
  assert (Hreturns : returns = None :: map Some (simple_returns first totals)).
  { unfold returns. cbn [map pct_change]. f_equal.
    apply pct_change_from_defined, Hnz. }
  split; [exact Hreturns|].
  unfold curve. rewrite Hreturns.
  split; [reflexivity|].
  intros t Ht.
  unfold product_of_defined.
  change (take (S (S t)) (None :: map Some (simple_returns first totals)))
    with (None :: take (S t) (map Some (simple_returns first totals))).
  change (defined_growth (None :: ?l)) with (defined_growth l).
  rewrite firstn_map, defined_growth_defined.
  change (one_plus (None :: ?l)) with (None :: one_plus l).
  rewrite one_plus_defined.
  change (cumprod (None :: ?l) !! S t) with (cumprod_from 1%Qc l !! t).
  rewrite cumprod_from_defined.
  - rewrite firstn_map. reflexivity.
  - rewrite length_map, simple_returns_length. exact Ht.
Qed.

(** The two columns the method reads from the snapshots. *)
Lemma snapshot_columns (rows : list (gmap string Qc)) (totals : list Qc) :
  Forall2 (λ row total, is_Some (row !! "datetime") ∧ row !! "total" = Some total)
    rows totals →
  totals ≠ [] →
  (∃ index, column "datetime" rows = Ok index) ∧
  column "total" (map (delete "datetime") rows) = Ok (map Some totals).
Proof.
  intros Hrows Hne.
  assert (Hcells : map (λ row : gmap string Qc, row !! "total")
                     (map (delete "datetime") rows) = map Some totals).
  { clear Hne. induction Hrows as [|row total rows totals [_ Hrow] _ IH].
    - reflexivity.
    - cbn [map]. rewrite IH. f_equal.
      rewrite lookup_delete_ne by discriminate. exact Hrow. }
  destruct Hrows as [|row total rows totals [Hdate Hrow] Hrows]; [done|].
  unfold column. cbn [existsb map].
  rewrite (bool_decide_eq_true_2 _ Hdate). cbn [orb].
  split; [eexists; reflexivity|].
  assert (Hkept : is_Some (delete "datetime" row !! "total")).
  { rewrite lookup_delete_ne by discriminate. by rewrite Hrow. }
  rewrite (bool_decide_eq_true_2 _ Hkept). cbn [orb].
  f_equal. exact Hcells.
Qed.

(** C6, as the code has it. Over snapshots whose totals are present and
    not zero, [create_equity_curve_dataframe] builds a table in which the
    first return has no value, the return at every later index [t] is
    [total_t / total_{t-1} - 1], the first value of the equity curve has
    no value either, and the value at every later index [t] is the product
    of [1 + return_i] over the defined returns with [i ≤ t]. *)
Theorem create_equity_curve_dataframe_columns (self : NaivePortfolio)
    (first : Qc) (totals : list Qc) :
  Forall2 (λ row total, is_Some (row !! "datetime") ∧ row !! "total" = Some total)
    (all_holdings self) (first :: totals) →
  Forall (λ x, x ≠ 0%Qc) (first :: totals) →
  ∃ self' : NaivePortfolio,
    create_equity_curve_dataframe self = (Ok tt, self') ∧
    returns_of self' !! 0%nat = Some None ∧
    (∀ (t : nat) (before total : Qc),
       (first :: totals) !! t = Some before →
       (first :: totals) !! S t = Some total →
       returns_of self' !! S t = Some (Some (total / before - 1)%Qc)) ∧
    equity_at self' 0 = Some None ∧
    (∀ t : nat,
       (1 ≤ t < length (first :: totals))%nat →
       equity_at self' t = Some (Some (product_of_defined (returns_of self') t))).
Proof.
  intros Hrows Hnz.
  destruct (snapshot_columns _ _ Hrows) as [[index Hindex] Htotal]; [done|].
  destruct (equity_columns first totals Hnz) as (Hreturns & Hzero & Hlater).
  unfold create_equity_curve_dataframe.
  unfold bind at 1, get at 1.
  unfold bind at 1, lift at 1. rewrite Hindex.
  unfold bind at 1, lift at 1. rewrite Htotal.
  unfold modify. eexists. split; [reflexivity|].
  unfold returns_of, equity_at.
  cbn [equity_curve set_equity_curve ec_returns ec_equity_curve].
  split; [|split; [|split]].
  - rewrite Hreturns. reflexivity.
  - intros t before total Hbefore Hcur. rewrite Hreturns.
    cbn [lookup list_lookup] in Hcur |- *.
    apply lookup_map_Some.
    exact (simple_returns_lookup totals first t before total Hbefore Hcur).
  - exact Hzero.
  - intros [|t] [Hlow Hhigh]; [lia|].
    apply Hlater. cbn in Hhigh. lia.
Qed.

End EquityCurve.

Lemma create_equity_curve_dataframe_columns_witness :
  let self := snd scenario_A_bar in
  Forall (λ x, x ≠ 0%Qc) [Qz 100000; Qz 100049] ∧
  ∃ self' : NaivePortfolio,
    create_equity_curve_dataframe self = (Ok tt, self') ∧
    returns_of self' !! 1%nat = Some (Some (Qz 100049 / Qz 100000 - 1)%Qc) ∧
    equity_at self' 1 = Some (Some (product_of_defined (returns_of self') 1)).
Proof.
  intros self.
  assert (Hnz : Forall (λ x, x ≠ 0%Qc) [Qz 100000; Qz 100049]).
  { repeat constructor; intros H; vm_compute in H; discriminate H. }
  assert (Hrows : Forall2 (λ (row : gmap string Qc) total,
                     is_Some (row !! "datetime") ∧ row !! "total" = Some total)
                    (all_holdings self) [Qz 100000; Qz 100049]).
  { subst self. set (rows := all_holdings (snd scenario_A_bar)).
    vm_compute in rows. subst rows.
    repeat constructor; vm_compute; try (eexists; reflexivity); reflexivity. }
  split; [exact Hnz|].
  destruct (create_equity_curve_dataframe_columns self (Qz 100000)
              [Qz 100049] Hrows Hnz)
    as (self' & Hrun & _ & Hreturn & _ & Hcurve).
  exists self'. split; [exact Hrun|]. split.
  - apply (Hreturn 0%nat); reflexivity.
  - apply Hcurve. cbn. lia.
Defined.

(** C6, as the specification words it, fails at the first index: over the
    totals 100000 and 100049 of scenario A no return is defined up to
    index 0, so that the product the claim asks for is the empty product
    1, while the equity curve has no value there. *)
Lemma equity_curve_first_value_undefined :
  fst scenario_A_report = Ok tt ∧
  returns_of (snd scenario_A_report) !! 0%nat = Some None ∧
  product_of_defined (returns_of (snd scenario_A_report)) 0 = 1%Qc ∧
  equity_at (snd scenario_A_report) 0 = Some None ∧
  equity_at (snd scenario_A_report) 0
  ≠ Some (Some (product_of_defined (returns_of (snd scenario_A_report)) 0)).
Proof.
  split; [vm_compute; reflexivity|].
  split; [vm_compute; reflexivity|].
  split; [vm_compute; reflexivity|].
  split; [vm_compute; reflexivity|].
  intros H. vm_compute in H. discriminate H.
Qed.

(** ** The ledgers stay complete *)

Section Invariant.
Context {C : Collaborators}.

Lemma dict_from_lookup {V : Type} (pairs : list (string * V)) (k : string) :
  ∀ d : gmap string V,
    is_Some (d !! k) ∨ k ∈ pairs.*1 →
    is_Some (fold_left (λ d kv, <[kv.1 := kv.2]> d) pairs d !! k).
Proof.
  induction pairs as [|[k' v'] pairs IH]; intros d Hk; cbn [fold_left].
  - destruct Hk as [Hk|Hk]; [exact Hk|]. by apply elem_of_nil in Hk.
  - apply IH. cbn [fst snd]. destruct Hk as [Hk|Hk].
    + left. apply lookup_insert_is_Some'. by right.
    + cbn in Hk. apply elem_of_cons in Hk as [->|Hk].
      * left. apply lookup_insert_is_Some'. by left.
      * by right.
Qed.

Lemma dict_constant_lookup {V : Type} (v : V) (symbols : list string)
    (s : string) :
  s ∈ symbols → is_Some (dict (map (λ s, (s, v)) symbols) !! s).
Proof.
  intros Hs. unfold dict. apply dict_from_lookup. right.
  apply list_elem_of_fmap. exists (s, v). split; [reflexivity|].
  apply list_elem_of_In. apply (in_map (λ s0, (s0, v))).
  by apply list_elem_of_In.
Qed.

(** The constructor sets the ledgers up complete. *)
Lemma init_well_formed (bars : DataHandler.t) (events : list (option Order))
    (start_date : Z) (initial_capital : Qc) :
  well_formed (__init__ bars events start_date initial_capital).
Proof.
  split; cbn [__init__ symbol_list current_positions current_holdings].
  - intros s Hs. by apply dict_constant_lookup.
  - intros k Hk. unfold construct_current_holdings.
    apply elem_of_app in Hk as [Hk|Hk].
    + do 3 (apply lookup_insert_is_Some'; right).
      by apply dict_constant_lookup.
    + unfold ledger_keys in Hk.
      repeat (apply elem_of_cons in Hk as [->|Hk]);
        [ | | | by apply elem_of_nil in Hk ].
      * apply lookup_insert_is_Some'; right.
        apply lookup_insert_is_Some'; right.
        apply lookup_insert_is_Some'; by left.
      * apply lookup_insert_is_Some'; right.
        apply lookup_insert_is_Some'; by left.
      * apply lookup_insert_is_Some'; by left.
Qed.

(** A write to an entry of the current holdings keeps them complete,
    whether or not the entry was there to be read. *)
Lemma update_holding_well_formed (key : string) (f : Qc → Qc)
    (self : NaivePortfolio) :
  well_formed self → well_formed (snd (update_holding key f self)).
Proof.
  intros [Hpos Hhold].
  unfold update_holding, bind, get, lift, modify, getitem.
  destruct (current_holdings self !! key) as [v|]; cbn [snd]; [|by split].
  split; [exact Hpos|].
  intros k Hk. cbn [current_holdings set_current_holdings].
  apply lookup_insert_is_Some'. right. by apply Hhold.
Qed.

Lemma bind_well_formed {A B : Type} (m : M A) (k : A → M B)
    (self : NaivePortfolio) :
  well_formed (snd (m self)) →
  (∀ a self', well_formed self' → well_formed (snd (k a self'))) →
  well_formed (snd (bind m k self)).
Proof.
  intros Hm Hk. unfold bind.
  destruct (m self) as [[a|e] self']; cbn [snd] in *.
  - by apply Hk.
  - exact Hm.
Qed.

(** Every method leaves the ledgers complete, also when it raises. *)
Lemma update_positions_from_fill_well_formed (fill : FillEvent.t)
    (self : NaivePortfolio) :
  well_formed self → well_formed (snd (update_positions_from_fill fill self)).
Proof.
  intros [Hpos Hhold].
  unfold update_positions_from_fill, bind, get, lift, modify, getitem.
  destruct (current_positions self !! FillEvent.symbol fill) as [v|];
    cbn [snd]; [|by split].
  split; [|exact Hhold].
  intros s Hs. cbn [current_positions set_current_positions].
  apply lookup_insert_is_Some'. right. by apply Hpos.
Qed.

Lemma update_holdings_from_fill_well_formed (bars : DataHandler.t)
    (fill : FillEvent.t) (self : NaivePortfolio) :
  well_formed self →
  well_formed (snd (update_holdings_from_fill bars fill self)).
Proof.
  intros Hwf. unfold update_holdings_from_fill.
  repeat (apply bind_well_formed;
          [by apply update_holding_well_formed|intros _ ? ?]).
  by apply update_holding_well_formed.
Qed.

Lemma update_fill_well_formed (bars : DataHandler.t) (event : Event)
    (self : NaivePortfolio) :
  well_formed self → well_formed (snd (update_fill bars event self)).
Proof.
  intros Hwf. unfold update_fill.
  destruct (String.eqb (event_type event) "FILL"); [|exact Hwf].
  destruct event as [signal|fill|type]; try exact Hwf.
  apply bind_well_formed;
    [by apply update_positions_from_fill_well_formed|intros _ self1 Hwf1].
  apply bind_well_formed;
    [by apply update_holdings_from_fill_well_formed|intros _ self2 Hwf2].
  apply bind_well_formed; [exact Hwf2|intros _ self3 Hwf3].
  exact Hwf3.
Qed.

Lemma update_signal_well_formed (event : Event) (self : NaivePortfolio) :
  well_formed self → well_formed (snd (update_signal event self)).
Proof.
  intros Hwf. unfold update_signal.
  destruct (String.eqb (event_type event) "SIGNAL"); [|exact Hwf].
  destruct event as [signal|fill|type]; try exact Hwf.
  apply bind_well_formed.
  - unfold generate_naive_order, bind, get, lift, ret, getitem.
    by destruct (current_positions self !! SignalEvent.symbol signal).
  - intros order self1 Hwf1. exact Hwf1.
Qed.

(** On complete ledgers a fill event for one of the symbols goes through. *)
Lemma update_fill_returns (bars : DataHandler.t) (fill : FillEvent.t)
    (self : NaivePortfolio) :
  well_formed self →
  FillEvent.type fill = "FILL" →
  FillEvent.symbol fill ∈ symbol_list self →
  fst (update_fill bars (FillEv fill) self) = Ok tt.
Proof.
  intros [Hpos Hhold] Htype Hsym.
  destruct (Hpos _ Hsym) as [position Hposition].
  destruct (update_fill_ok bars fill self position Htype Hposition)
    as (self' & Hrun & _).
  - intros k Hk. apply Hhold, elem_of_app.
    apply elem_of_cons in Hk as [->|Hk]; [by left|by right].
  - by rewrite Hrun.
Qed.

(** The loops of a snapshot read the portfolio and write only to the
    record they build. *)
Lemma copy_positions_reads (symbols : list string) (self : NaivePortfolio) :
  ∀ dp : gmap string Z, snd (for_local symbols dp copy_position self) = self.
Proof.
  induction symbols as [|s symbols IH]; intros dp; [reflexivity|].
  cbn [for_local]. unfold bind at 1, copy_position at 1.
  unfold bind, get, lift, ret, getitem.
  destruct (current_positions self !! s); [apply IH|reflexivity].
Qed.

Lemma mark_to_market_reads (bars : DataHandler.t) (symbols : list string)
    (self : NaivePortfolio) :
  ∀ dh : gmap string Qc,
    snd (for_local symbols dh (mark_to_market bars) self) = self.
Proof.
  induction symbols as [|s symbols IH]; intros dh; [reflexivity|].
  cbn [for_local]. unfold bind at 1, mark_to_market at 1.
  unfold bind, get, lift, ret, getitem.
  destruct (current_positions self !! s) as [p|]; [|reflexivity].
  destruct (<[s := _]> dh !! "total"); [apply IH|reflexivity].
Qed.

Lemma update_timeindex_well_formed (bars : DataHandler.t) (event : Event)
    (self : NaivePortfolio) :
  well_formed self → well_formed (snd (update_timeindex bars event self)).
Proof.
  intros Hwf. unfold update_timeindex.
  apply bind_well_formed; [exact Hwf|intros symbols self1 Hwf1].
  apply bind_well_formed; [exact Hwf1|intros first self2 Hwf2].
  apply bind_well_formed;
    [by rewrite copy_positions_reads|intros dp self3 Hwf3].
  apply bind_well_formed; [exact Hwf3|intros records self4 Hwf4].
  apply bind_well_formed; [exact Hwf4|intros _ self5 Hwf5].
  apply bind_well_formed; [exact Hwf5|intros holdings self6 Hwf6].
  apply bind_well_formed; [exact Hwf6|intros cash self7 Hwf7].
  apply bind_well_formed; [exact Hwf7|intros commission self8 Hwf8].
  apply bind_well_formed; [exact Hwf8|intros cash' self9 Hwf9].
  apply bind_well_formed;
    [by rewrite mark_to_market_reads|intros dh self10 Hwf10].
  apply bind_well_formed; [exact Hwf10|intros snapshots self11 Hwf11].
  exact Hwf11.
Qed.

End Invariant.

(** ** More on fills *)

Section FillEffects.
Context {C : Collaborators}.

(** What holds of the portfolio a computation leaves behind, whether it
    returns or raises. *)
Lemma bind_leaves {A B : Type} (P : NaivePortfolio → Prop) (m : M A)
    (k : A → M B) (self : NaivePortfolio) :
  (∀ e self', m self = (Raise e, self') → P self') →
  (∀ a self', m self = (Ok a, self') → P (snd (k a self'))) →
  P (snd (bind m k self)).
Proof.
  intros Hraise Hok. unfold bind.
  destruct (m self) as [[a|e] self'] eqn:Hm; cbn [snd].
  - by apply Hok.
  - by eapply Hraise.
Qed.

Lemma for_each_leaves {A : Type} (P : NaivePortfolio → Prop)
    (body : A → M unit) (l : list A) :
  (∀ x self, x ∈ l → P self → P (snd (body x self))) →
  ∀ self, P self → P (snd (for_each l body self)).
Proof.
  induction l as [|x l IH]; intros Hbody self HP; [exact HP|].
  assert (Hx : P (snd (body x self))).
  { apply Hbody; [apply list_elem_of_here|exact HP]. }
  cbn [for_each]. apply bind_leaves.
  - intros e self' Hrun. by rewrite Hrun in Hx.
  - intros [] self' Hrun. rewrite Hrun in Hx. apply IH; [|exact Hx].
    intros y self0 Hy. apply Hbody. by apply list_elem_of_further.
Qed.

(** The portfolio a fill event leaves behind when the symbol is known to
    both ledgers. *)
Lemma update_fill_effects (bars : DataHandler.t) (fill : FillEvent.t)
    (self : NaivePortfolio) (position : Z) :
  FillEvent.type fill = "FILL" →
  current_positions self !! FillEvent.symbol fill = Some position →
  (∀ k, k ∈ FillEvent.symbol fill :: ledger_keys →
        is_Some (current_holdings self !! k)) →
  ∃ h : gmap string Qc,
    update_fill bars (FillEv fill) self =
      (Ok tt,
       set_all_fills (all_fills self ++ [fill_record fill])
         (set_all_orders
            (<[order_id (FillEvent.order fill) := FillEvent.order fill]>
               (all_orders self))
            (set_current_holdings h
               (set_current_positions
                  (<[FillEvent.symbol fill :=
                       position + sign (FillEvent.direction fill)
                                  * FillEvent.quantity fill]>
                     (current_positions self))
                  self)))).
Proof.
  intros Htype Hpos Hkeys.
  unfold update_fill. cbn [event_type].
  replace (String.eqb (FillEvent.type fill) "FILL") with true
    by (rewrite Htype; reflexivity).
  unfold bind at 1. rewrite (update_positions_from_fill_run _ _ _ Hpos).
  set (self1 := set_current_positions _ self).
  destruct (update_holdings_from_fill_ok bars fill self1 Hkeys)
    as (h & Hrun & _).
  unfold bind at 1. rewrite Hrun.
  exists h. reflexivity.
Qed.

(** X1. A fill event for a symbol that has no position raises
    [KeyError] for the symbol and leaves the portfolio as it was: nothing
    is booked, registered or logged. *)
Theorem update_fill_unknown_symbol (bars : DataHandler.t)
    (fill : FillEvent.t) (self : NaivePortfolio) :
  FillEvent.type fill = "FILL" →
  current_positions self !! FillEvent.symbol fill = None →
  update_fill bars (FillEv fill) self
  = (Raise (KeyError (FillEvent.symbol fill)), self).
Proof.
  intros Htype Hpos. unfold update_fill. cbn [event_type].
  replace (String.eqb (FillEvent.type fill) "FILL") with true
    by (rewrite Htype; reflexivity).
  unfold bind at 1.
  rewrite (update_positions_from_fill_unknown_symbol _ _ Hpos). reflexivity.
Qed.

(** X2. A fill event that is applied puts its order into the registry
    under the order's identifier, in place of whatever was there, and
    leaves the entries of all other identifiers as they were. *)
Theorem update_fill_registers_order (bars : DataHandler.t)
    (fill : FillEvent.t) (self : NaivePortfolio) (position : Z) :
  FillEvent.type fill = "FILL" →
  current_positions self !! FillEvent.symbol fill = Some position →
  (∀ k, k ∈ FillEvent.symbol fill :: ledger_keys →
        is_Some (current_holdings self !! k)) →
  ∃ self' : NaivePortfolio,
    update_fill bars (FillEv fill) self = (Ok tt, self') ∧
    all_orders self' !! order_id (FillEvent.order fill)
      = Some (FillEvent.order fill) ∧
    (∀ id : Z, id ≠ order_id (FillEvent.order fill) →
               all_orders self' !! id = all_orders self !! id).
Proof.
  intros Htype Hpos Hkeys.
  destruct (update_fill_effects bars fill self position Htype Hpos Hkeys)
    as (h & Hrun).
  eexists. split; [exact Hrun|].
  cbn [all_orders set_all_fills set_all_orders]. split.
  - apply lookup_insert_eq.
  - intros id Hid. by apply lookup_insert_ne.
Qed.

(** X3. A fill event that is applied adds one record to the end of the
    fill log, the fields of the fill with the order replaced by its
    identifier, and leaves the earlier records as they were. *)
Theorem update_fill_logs_fill (bars : DataHandler.t)
    (fill : FillEvent.t) (self : NaivePortfolio) (position : Z) :
  FillEvent.type fill = "FILL" →
  current_positions self !! FillEvent.symbol fill = Some position →
  (∀ k, k ∈ FillEvent.symbol fill :: ledger_keys →
        is_Some (current_holdings self !! k)) →
  ∃ self' : NaivePortfolio,
    update_fill bars (FillEv fill) self = (Ok tt, self') ∧
    all_fills self' = (all_fills self ++ [fill_record fill])%list ∧
    FillRecord.order (fill_record fill) = order_id (FillEvent.order fill).
Proof.
  intros Htype Hpos Hkeys.
  destruct (update_fill_effects bars fill self position Htype Hpos Hkeys)
    as (h & Hrun).
  eexists. split; [exact Hrun|]. split; reflexivity.
Qed.

(** X4. Whatever the event and whether it returns or raises,
    [update_fill] writes to the current positions, the current holdings,
    the order registry and the fill log only: the event queue, the symbol
    list, both snapshot histories and the reporting tables are left as
    they were. *)
Theorem update_fill_leaves_history (bars : DataHandler.t) (event : Event)
    (self : NaivePortfolio) :
  let self' := snd (update_fill bars event self) in
  events self' = events self ∧
  symbol_list self' = symbol_list self ∧
  all_positions self' = all_positions self ∧
  all_holdings self' = all_holdings self ∧
  equity_curve self' = equity_curve self ∧
  order_history self' = order_history self.
Proof.
  cbv zeta. unfold update_fill.
  destruct (String.eqb (event_type event) "FILL"); [|by repeat split].
  destruct event as [signal|fill|type]; [by repeat split| |by repeat split].
  unfold update_positions_from_fill, update_holdings_from_fill,
    update_holding, update_orders_from_fill, bind, get, lift, modify, getitem.
  repeat match goal with
    | |- context [match ?m !! ?k with _ => _ end] =>
        destruct (m !! k); cbn [snd fst]
    end;
    by repeat split.
Qed.

End FillEffects.

(** ** Runs of fill events *)

Section FillRuns.
Context {C : Collaborators}.

(** X5. [update_fills] applies the events in order and stops at the first
    one that raises: the events before it stay applied, the exception and
    the portfolio are those of the failing event, and the events after it
    are not applied. *)
Theorem update_fills_stops_at_first_error (bars : DataHandler.t)
    (applied : list Event) (event : Event) (rest : list Event)
    (self self1 self2 : NaivePortfolio) (e : exn) :
  update_fills bars applied self = (Ok tt, self1) →
  update_fill bars event self1 = (Raise e, self2) →
  update_fills bars (applied ++ event :: rest) self = (Raise e, self2).
Proof.
  unfold update_fills. revert self.
  induction applied as [|x applied IH]; intros self Happlied Hevent.
  - cbn in Happlied. injection Happlied as <-.
    cbn [app for_each]. unfold bind. rewrite Hevent. reflexivity.
  - cbn [app for_each] in Happlied |- *. unfold bind in Happlied |- *.
    destruct (update_fill bars x self) as [[[]|e'] self'];
      [|discriminate Happlied].
    by apply IH.
Qed.

(** X6. A run of events through [update_fills] that returns is the run
    of its first part followed by the run of the rest. *)
Theorem update_fills_app (bars : DataHandler.t) (first rest : list Event)
    (self self1 self2 : NaivePortfolio) :
  update_fills bars first self = (Ok tt, self1) →
  update_fills bars rest self1 = (Ok tt, self2) →
  update_fills bars (first ++ rest) self = (Ok tt, self2).
Proof.
  unfold update_fills. revert self.
  induction first as [|x first IH]; intros self Hfirst Hrest.
  - cbn in Hfirst. injection Hfirst as <-. exact Hrest.
  - cbn [app for_each] in Hfirst |- *. unfold bind in Hfirst |- *.
    destruct (update_fill bars x self) as [[[]|e'] self'];
      [|discriminate Hfirst].
    by apply IH.
Qed.

(** X7. Complete ledgers stay complete through any run of events handed
    to [update_fills], also when the run raises midway: every symbol
    keeps a position, and the holdings keep an entry for every symbol and
    every ledger key. *)
Theorem update_fills_keeps_ledgers_complete (bars : DataHandler.t)
    (events : list Event) (self : NaivePortfolio) :
  well_formed self →
  well_formed (snd (update_fills bars events self)).
Proof.
  intros Hwf. unfold update_fills.
  apply (for_each_leaves well_formed); [|exact Hwf].
  intros event self0 _. apply update_fill_well_formed.
Qed.

(** X8. A fill on an instrument moves value between the entries of the
    holdings and creates none: the value of the instrument, the cash and
    the commission add up to the same amount after the fill as before. *)
Theorem update_fill_conserves_book_value (bars : DataHandler.t)
    (fill : FillEvent.t) (self : NaivePortfolio)
    (position : Z) (value commission cash total : Qc) :
  FillEvent.type fill = "FILL" →
  FillEvent.symbol fill ∉ ledger_keys →
  current_positions self !! FillEvent.symbol fill = Some position →
  current_holdings self !! FillEvent.symbol fill = Some value →
  current_holdings self !! "commission" = Some commission →
  current_holdings self !! "cash" = Some cash →
  current_holdings self !! "total" = Some total →
  ∃ (self' : NaivePortfolio) (value' commission' cash' : Qc),
    update_fill bars (FillEv fill) self = (Ok tt, self') ∧
    current_holdings self' !! FillEvent.symbol fill = Some value' ∧
    current_holdings self' !! "commission" = Some commission' ∧
    current_holdings self' !! "cash" = Some cash' ∧
    (value' + cash' + commission' = value + cash + commission)%Qc.
Proof.
  intros Htype Hsym Hpos Hv Hk Hc Ht.
  set (cost :=
    (Qz (sign (FillEvent.direction fill) * FillEvent.quantity fill)
     * DataHandler.get_latest_bar_value bars (FillEvent.symbol fill) "close")%Qc).
  destruct (holdings_entries_apart (current_holdings self)
              (FillEvent.symbol fill) (value + cost)%Qc
              (commission + FillEvent.commission fill)%Qc
              (cash - (cost + FillEvent.commission fill))%Qc
              (total - (cost + FillEvent.commission fill))%Qc Hsym)
    as (E1 & E2 & E3 & L1 & L2 & L3 & L4).
  destruct (update_fill_run bars fill self position value commission cash total)
    as (self' & Hrun & _ & Hhold' & _); try assumption.
  - exact (eq_trans E1 Hk).
  - exact (eq_trans E2 Hc).
  - exact (eq_trans E3 Ht).
  - exists self', (value + cost)%Qc, (commission + FillEvent.commission fill)%Qc,
      (cash - (cost + FillEvent.commission fill))%Qc.
    split; [exact Hrun|]. rewrite Hhold'. fold cost.
    split; [exact L1|]. split; [exact L2|]. split; [exact L3|]. ring.
Qed.

Lemma bind_keeps {A B : Type} (P : NaivePortfolio → Prop) (m : M A)
    (k : A → M B) (self : NaivePortfolio) :
  P (snd (m self)) →
  (∀ a self', P self' → P (snd (k a self'))) →
  P (snd (bind m k self)).
Proof.
  intros Hm Hk. apply bind_leaves.
  - intros e self' Hrun. by rewrite Hrun in Hm.
  - intros a self' Hrun. apply Hk. by rewrite Hrun in Hm.
Qed.

(** A write to another entry of the holdings leaves cash and total alone. *)
Lemma update_holding_cash_is_total (key : string) (f : Qc → Qc)
    (self : NaivePortfolio) :
  key ≠ "cash" → key ≠ "total" →
  cash_is_total self → cash_is_total (snd (update_holding key f self)).
Proof.
  intros Hc Ht Hinv.
  unfold update_holding, bind, get, lift, modify, getitem.
  destruct (current_holdings self !! key) as [v|]; cbn [snd]; [|exact Hinv].
  unfold cash_is_total in *.
  cbn [current_holdings set_current_holdings].
  by rewrite !lookup_insert_ne.
Qed.

(** The last two writes of a fill take the same amount from cash and from
    total. *)
Lemma cash_then_total (f : Qc → Qc) (self : NaivePortfolio) :
  cash_is_total self →
  cash_is_total
    (snd ((update_holding "cash" f ;; update_holding "total" f) self)).
Proof.
  unfold cash_is_total. intros Hinv.
  unfold update_holding, bind, get, lift, modify, getitem.
  destruct (current_holdings self !! "cash") as [c|] eqn:Hc;
    cbn [snd fst current_holdings set_current_holdings]; [|congruence].
  rewrite lookup_insert_ne by discriminate. rewrite <- Hinv.
  cbn [snd fst current_holdings set_current_holdings].
  rewrite lookup_insert_eq, lookup_insert_ne by discriminate.
  apply lookup_insert_eq.
Qed.

(** One event keeps the total of the current holdings equal to their
    cash, provided a fill does not name a ledger key as its symbol. *)
Lemma update_fill_cash_is_total (bars : DataHandler.t) (event : Event)
    (self : NaivePortfolio) :
  (∀ fill, event = FillEv fill → FillEvent.symbol fill ∉ ledger_keys) →
  cash_is_total self →
  cash_is_total (snd (update_fill bars event self)).
Proof.
  intros Hsym Hinv. unfold update_fill.
  destruct (String.eqb (event_type event) "FILL"); [|exact Hinv].
  destruct event as [signal|fill|type]; [exact Hinv| |exact Hinv].
  specialize (Hsym fill eq_refl). unfold ledger_keys in Hsym.
  assert (FillEvent.symbol fill ≠ "cash") by set_solver.
  assert (FillEvent.symbol fill ≠ "total") by set_solver.
  apply bind_keeps.
  { unfold update_positions_from_fill, bind, get, lift, modify, getitem.
    by destruct (current_positions self !! FillEvent.symbol fill). }
  intros _ self1 Hinv1. apply bind_keeps.
  { unfold update_holdings_from_fill.
    apply bind_keeps; [by apply update_holding_cash_is_total|].
    intros _ self2 Hinv2.
    apply bind_keeps; [by apply update_holding_cash_is_total|].
    intros _ self3 Hinv3. by apply cash_then_total. }
  intros _ self2 Hinv2. apply bind_keeps; [exact Hinv2|].
  intros _ self3 Hinv3. exact Hinv3.
Qed.

(** X9. In the current holdings the total stays equal to the cash through
    any run of events handed to [update_fills], also when the run raises
    midway, as long as no fill names a ledger key as its symbol: a fill
    takes the same amount from both. *)
Theorem update_fills_cash_is_total (bars : DataHandler.t)
    (events : list Event) (self : NaivePortfolio) :
  (∀ fill, FillEv fill ∈ events → FillEvent.symbol fill ∉ ledger_keys) →
  cash_is_total self →
  cash_is_total (snd (update_fills bars events self)).
Proof.
  intros Hsym Hinv. unfold update_fills.
  apply (for_each_leaves cash_is_total); [|exact Hinv].
  intros event self0 Hevent. apply update_fill_cash_is_total.
  intros fill ->. by apply Hsym.
Qed.

End FillRuns.

Lemma ledger_keys_exclude_X : "X" ∉ ledger_keys.
Proof.
  unfold ledger_keys. intros Hin.
  repeat (apply elem_of_cons in Hin as [Hin|Hin]; [discriminate Hin|]).
  by apply elem_of_nil in Hin.
Qed.

Lemma update_fill_unknown_symbol_witness :
  FillEvent.type fill_Y = "FILL" ∧
  current_positions portfolio_X !! "Y" = None ∧
  update_fill (bars_X 50) (FillEv fill_Y) portfolio_X
  = (Raise (KeyError "Y"), portfolio_X).
Proof.
  assert (Htype : FillEvent.type fill_Y = "FILL") by reflexivity.
  assert (Hpos : current_positions portfolio_X !! FillEvent.symbol fill_Y = None)
    by (vm_compute; reflexivity).
  split; [exact Htype|]. split; [exact Hpos|].
  exact (update_fill_unknown_symbol (bars_X 50) fill_Y portfolio_X Htype Hpos).
Defined.

Lemma update_fill_registers_order_witness :
  let fill := fill_X "BUY" 10 50 in
  FillEvent.type fill = "FILL" ∧
  current_positions portfolio_X !! "X" = Some 0 ∧
  ∃ self' : NaivePortfolio,
    update_fill (bars_X 50) (FillEv fill) portfolio_X = (Ok tt, self') ∧
    all_orders self' !! 7 = Some (FillEvent.order fill).
Proof.
  intros fill.
  assert (Htype : FillEvent.type fill = "FILL") by reflexivity.
  assert (Hpos : current_positions portfolio_X !! FillEvent.symbol fill = Some 0)
    by (vm_compute; reflexivity).
  split; [exact Htype|]. split; [exact Hpos|].
  destruct (update_fill_registers_order (bars_X 50) fill portfolio_X 0
              Htype Hpos portfolio_X_entries) as (self' & Hrun & Hnew & _).
  exists self'. split; [exact Hrun|exact Hnew].
Defined.

Lemma update_fill_logs_fill_witness :
  let fill := fill_X "BUY" 10 50 in
  FillEvent.type fill = "FILL" ∧
  current_positions portfolio_X !! "X" = Some 0 ∧
  ∃ self' : NaivePortfolio,
    update_fill (bars_X 50) (FillEv fill) portfolio_X = (Ok tt, self') ∧
    all_fills self' = [fill_record fill].
Proof.
  intros fill.
  assert (Htype : FillEvent.type fill = "FILL") by reflexivity.
  assert (Hpos : current_positions portfolio_X !! FillEvent.symbol fill = Some 0)
    by (vm_compute; reflexivity).
  split; [exact Htype|]. split; [exact Hpos|].
  destruct (update_fill_logs_fill (bars_X 50) fill portfolio_X 0
              Htype Hpos portfolio_X_entries) as (self' & Hrun & Hlog & _).
  exists self'. split; [exact Hrun|exact Hlog].
Defined.

Lemma update_fills_stops_at_first_error_witness :
  let buy := FillEv (fill_X "BUY" 10 50) in
  let sell := FillEv (fill_X "SELL" 10 50) in
  update_fills (bars_X 50) [buy] portfolio_X = (Ok tt, portfolio_X_long) ∧
  update_fill (bars_X 50) (FillEv fill_Y) portfolio_X_long
  = (Raise (KeyError "Y"), portfolio_X_long) ∧
  update_fills (bars_X 50) ([buy] ++ FillEv fill_Y :: [sell]) portfolio_X
  = (Raise (KeyError "Y"), portfolio_X_long).
Proof.
  intros buy sell.
  assert (H1 : update_fills (bars_X 50) [buy] portfolio_X
               = (Ok tt, portfolio_X_long)) by (vm_compute; reflexivity).
  assert (H2 : update_fill (bars_X 50) (FillEv fill_Y) portfolio_X_long
               = (Raise (KeyError "Y"), portfolio_X_long))
    by (vm_compute; reflexivity).
  split; [exact H1|]. split; [exact H2|].
  exact (update_fills_stops_at_first_error (bars_X 50) [buy] (FillEv fill_Y)
           [sell] portfolio_X portfolio_X_long portfolio_X_long
           (KeyError "Y") H1 H2).
Defined.

Lemma update_fills_app_witness :
  let buy := FillEv (fill_X "BUY" 10 50) in
  let sell := FillEv (fill_X "SELL" 10 50) in
  let flat := snd (update_fill (bars_X 50) sell portfolio_X_long) in
  update_fills (bars_X 50) [buy] portfolio_X = (Ok tt, portfolio_X_long) ∧
  update_fills (bars_X 50) [sell] portfolio_X_long = (Ok tt, flat) ∧
  update_fills (bars_X 50) ([buy] ++ [sell]) portfolio_X = (Ok tt, flat).
Proof.
  intros buy sell flat.
  assert (H1 : update_fills (bars_X 50) [buy] portfolio_X
               = (Ok tt, portfolio_X_long)) by (vm_compute; reflexivity).
  assert (H2 : update_fills (bars_X 50) [sell] portfolio_X_long
               = (Ok tt, flat)) by (vm_compute; reflexivity).
  split; [exact H1|]. split; [exact H2|].
  exact (update_fills_app (bars_X 50) [buy] [sell] portfolio_X
           portfolio_X_long flat H1 H2).
Defined.

Lemma update_fills_keeps_ledgers_complete_witness :
  let events := [FillEv (fill_X "BUY" 10 50); FillEv fill_Y] in
  well_formed portfolio_X ∧
  well_formed (snd (update_fills (bars_X 50) events portfolio_X)).
Proof.
  intros events.
  assert (Hwf : well_formed portfolio_X) by apply init_well_formed.
  split; [exact Hwf|].
  exact (update_fills_keeps_ledgers_complete (bars_X 50) events portfolio_X Hwf).
Defined.

Lemma update_fill_conserves_book_value_witness :
  let fill := fill_X "SELL" 4 50 in
  FillEvent.type fill = "FILL" ∧
  current_positions portfolio_X_long !! "X" = Some 10 ∧
  ∃ (self' : NaivePortfolio) (value' commission' cash' : Qc),
    update_fill (bars_X 55) (FillEv fill) portfolio_X_long = (Ok tt, self') ∧
    current_holdings self' !! "X" = Some value' ∧
    current_holdings self' !! "commission" = Some commission' ∧
    current_holdings self' !! "cash" = Some cash' ∧
    (value' + cash' + commission' = Qz 500 + Qz 99499 + Qz 1)%Qc.
Proof.
  intros fill.
  assert (Htype : FillEvent.type fill = "FILL") by reflexivity.
  assert (Hpos : current_positions portfolio_X_long !! FillEvent.symbol fill
                 = Some 10) by (vm_compute; reflexivity).
  split; [exact Htype|]. split; [exact Hpos|].
  apply (update_fill_conserves_book_value (bars_X 55) fill portfolio_X_long 10
           (Qz 500) (Qz 1) (Qz 99499) (Qz 99499) Htype ledger_keys_exclude_X Hpos);
    vm_compute; reflexivity.
Defined.

Lemma update_fills_cash_is_total_witness :
  let events := [FillEv (fill_X "BUY" 10 50); FillEv (fill_X "SELL" 4 50)] in
  cash_is_total portfolio_X ∧
  cash_is_total (snd (update_fills (bars_X 50) events portfolio_X)).
Proof.
  intros events.
  assert (Hinv : cash_is_total portfolio_X) by (vm_compute; reflexivity).
  assert (Hsym : ∀ fill : FillEvent.t,
             FillEv fill ∈ events → FillEvent.symbol fill ∉ ledger_keys).
  { intros fill Hin.
    repeat (apply elem_of_cons in Hin as [Hin|Hin];
            [injection Hin as ->; exact ledger_keys_exclude_X|]).
    by apply elem_of_nil in Hin. }
  split; [exact Hinv|].
  exact (update_fills_cash_is_total (bars_X 50) events portfolio_X Hsym Hinv).
Defined.

(** ** More on signals *)

Section SignalEffects.
Context {C : Collaborators}.

Lemma set_events_same (self : NaivePortfolio) :
  set_events (events self ++ []) self = self.
Proof. destruct self. unfold set_events. cbn. by rewrite app_nil_r. Qed.

(** X10. An event whose [type] is not SIGNAL is ignored by
    [update_signal]: the method returns without raising, queues nothing
    and leaves the portfolio as it was. *)
Theorem update_signal_ignores_other_events (event : Event)
    (self : NaivePortfolio) :
  event_type event ≠ "SIGNAL" →
  update_signal event self = (Ok tt, self).
Proof.
  intros Htype. unfold update_signal.
  destruct (String.eqb_spec (event_type event) "SIGNAL") as [Heq|_].
  - contradiction.
  - reflexivity.
Qed.

(** X11. A signal for a symbol that has no position raises [KeyError]
    for the symbol, whatever the kind of the signal, and nothing is put on
    the event queue. *)
Theorem update_signal_unknown_symbol (signal : SignalEvent.t)
    (self : NaivePortfolio) :
  SignalEvent.type signal = "SIGNAL" →
  current_positions self !! SignalEvent.symbol signal = None →
  update_signal (SignalEv signal) self
  = (Raise (KeyError (SignalEvent.symbol signal)), self).
Proof.
  intros Htype Hpos. unfold update_signal. cbn [event_type].
  rewrite Htype. cbn [String.eqb Ascii.eqb Bool.eqb].
  unfold bind at 1.
  rewrite (generate_naive_order_unknown_symbol _ _ Hpos). reflexivity.
Qed.

(** X12. Whatever the event and whether it returns or raises,
    [update_signal] changes nothing of the portfolio but the event queue,
    to which it adds at most one item at the end. *)
Theorem update_signal_writes_queue_only (event : Event)
    (self : NaivePortfolio) :
  ∃ items : list (option Order),
    snd (update_signal event self) = set_events (events self ++ items) self ∧
    (length items ≤ 1)%nat.
Proof.
  unfold update_signal.
  destruct (String.eqb (event_type event) "SIGNAL");
    [|exists []; split; [symmetry; apply set_events_same|cbn; lia]].
  destruct event as [signal|fill|type];
    [|exists []; split; [symmetry; apply set_events_same|cbn; lia]..].
  unfold generate_naive_order, bind, get, lift, ret, modify, getitem.
  destruct (current_positions self !! SignalEvent.symbol signal) as [position|];
    cbn [snd].
  - eexists [_]. split; [reflexivity|cbn; lia].
  - exists []. split; [symmetry; apply set_events_same|cbn; lia].
Qed.

(** X13. The order sized for an EXIT signal closes the position: a fill
    of the symbol with the direction and the quantity of that order brings
    a position that is not zero to zero. *)
Theorem exit_order_closes_position (signal : SignalEvent.t)
    (self : NaivePortfolio) (position : Z) :
  SignalEvent.signal_type signal = "EXIT" →
  position ≠ 0 →
  current_positions self !! SignalEvent.symbol signal = Some position →
  ∃ (quantity : Z) (direction : string),
    generate_naive_order signal self
      = (Ok (Some (OrderEvent signal quantity direction)), self) ∧
    ∀ fill : FillEvent.t,
      FillEvent.symbol fill = SignalEvent.symbol signal →
      FillEvent.direction fill = direction →
      FillEvent.quantity fill = quantity →
      ∃ self' : NaivePortfolio,
        update_positions_from_fill fill self = (Ok tt, self') ∧
        current_positions self' !! SignalEvent.symbol signal = Some 0.
Proof.
  intros Hkind Hnz Hpos.
  rewrite (generate_naive_order_run signal self position Hpos).
  cbv zeta. rewrite Hkind. cbn [String.eqb Ascii.eqb Bool.eqb andb].
  destruct (Z.ltb_spec position 0) as [Hneg|Hnonneg].
  - exists (Z.abs position), "BUY". split; [reflexivity|].
    intros fill Hsym Hdir Hq. rewrite <- Hsym in Hpos |- *.
    rewrite (update_positions_from_fill_run fill self position Hpos).
    eexists. split; [reflexivity|].
    cbn [current_positions set_current_positions].
    rewrite lookup_insert_eq, Hdir, Hq, sign_BUY. f_equal. lia.
  - destruct (Z.ltb_spec 0 position) as [Hpos'|Hle]; [|lia].
    exists (Z.abs position), "SELL". split; [reflexivity|].
    intros fill Hsym Hdir Hq. rewrite <- Hsym in Hpos |- *.
    rewrite (update_positions_from_fill_run fill self position Hpos).
    eexists. split; [reflexivity|].
    cbn [current_positions set_current_positions].
    rewrite lookup_insert_eq, Hdir, Hq, sign_SELL. f_equal. lia.
Qed.

End SignalEffects.

Lemma update_signal_ignores_other_events_witness :
  event_type (FillEv (fill_X "BUY" 10 50)) ≠ "SIGNAL" ∧
  update_signal (FillEv (fill_X "BUY" 10 50)) portfolio_X = (Ok tt, portfolio_X).
Proof.
  assert (H : event_type (FillEv (fill_X "BUY" 10 50)) ≠ "SIGNAL")
    by (simpl; discriminate).
  split; [exact H|].
  exact (update_signal_ignores_other_events _ portfolio_X H).
Defined.

Lemma update_signal_unknown_symbol_witness :
  SignalEvent.type signal_Y = "SIGNAL" ∧
  current_positions portfolio_X !! "Y" = None ∧
  update_signal (SignalEv signal_Y) portfolio_X
  = (Raise (KeyError "Y"), portfolio_X).
Proof.
  assert (Htype : SignalEvent.type signal_Y = "SIGNAL") by reflexivity.
  assert (Hpos : current_positions portfolio_X !! SignalEvent.symbol signal_Y
                 = None) by (vm_compute; reflexivity).
  split; [exact Htype|]. split; [exact Hpos|].
  exact (update_signal_unknown_symbol signal_Y portfolio_X Htype Hpos).
Defined.

Lemma exit_order_closes_position_witness :
  SignalEvent.signal_type (signal_X "EXIT" 0) = "EXIT" ∧
  current_positions portfolio_X_long !! "X" = Some 10 ∧
  ∃ (quantity : Z) (direction : string),
    generate_naive_order (signal_X "EXIT" 0) portfolio_X_long
      = (Ok (Some (OrderEvent (signal_X "EXIT" 0) quantity direction)),
         portfolio_X_long) ∧
    ∀ fill : FillEvent.t,
      FillEvent.symbol fill = "X" →
      FillEvent.direction fill = direction →
      FillEvent.quantity fill = quantity →
      ∃ self' : NaivePortfolio,
        update_positions_from_fill fill portfolio_X_long = (Ok tt, self') ∧
        current_positions self' !! "X" = Some 0.
Proof.
  assert (Hkind : SignalEvent.signal_type (signal_X "EXIT" 0) = "EXIT")
    by reflexivity.
  assert (Hnz : 10 ≠ 0) by lia.
  assert (Hpos : current_positions portfolio_X_long
                   !! SignalEvent.symbol (signal_X "EXIT" 0) = Some 10)
    by (vm_compute; reflexivity).
  split; [exact Hkind|]. split; [exact Hpos|].
  exact (exit_order_closes_position (signal_X "EXIT" 0) portfolio_X_long 10
           Hkind Hnz Hpos).
Defined.

(** ** More on bar snapshots *)

Section SnapshotEffects.
Context {C : Collaborators}.

Lemma set_histories_same (self : NaivePortfolio) :
  set_all_holdings (all_holdings self ++ [])
    (set_all_positions (all_positions self ++ []) self) = self.
Proof.
  destruct self. unfold set_all_holdings, set_all_positions. cbn.
  by rewrite !app_nil_r.
Qed.

Lemma set_positions_history_only (self : NaivePortfolio)
    (dp : gmap string Z) :
  set_all_holdings (all_holdings self ++ [])
    (set_all_positions (all_positions self ++ [dp]) self)
  = set_all_positions (all_positions self ++ [dp]) self.
Proof.
  destruct self. unfold set_all_holdings, set_all_positions. cbn.
  by rewrite !app_nil_r.
Qed.

(** The second loop goes through whenever every symbol has a position and
    the record has a total to add to; it drops no entry of the record and
    writes to the entries of the symbols and to the total only. *)
Lemma mark_to_market_returns (bars : DataHandler.t) (symbols : list string)
    (self : NaivePortfolio) :
  (∀ s, s ∈ symbols → is_Some (current_positions self !! s)) →
  ∀ dh : gmap string Qc,
    is_Some (dh !! "total") →
    ∃ dh' : gmap string Qc,
      for_local symbols dh (mark_to_market bars) self = (Ok dh', self) ∧
      (∀ k, is_Some (dh !! k) → is_Some (dh' !! k)) ∧
      (∀ k, k ∉ symbols → k ≠ "total" → dh' !! k = dh !! k).
Proof.
  induction symbols as [|s symbols IH]; intros Hknown dh Htotal.
  - exists dh. by repeat split.
  - destruct (Hknown s) as [p Hp]; [apply list_elem_of_here|].
    set (value := (Qz p * DataHandler.get_latest_bar_value bars s "close")%Qc).
    assert (Hread : is_Some (<[s := value]> dh !! "total")).
    { apply lookup_insert_is_Some'. by right. }
    destruct Hread as [total Hread].
    set (dh1 := <["total" := (total + value)%Qc]> (<[s := value]> dh)).
    destruct (IH (λ s' Hs', Hknown s' (list_elem_of_further _ _ _ Hs')) dh1)
      as (dh' & Hrun & Hkeys & Hframe).
    { unfold dh1. rewrite lookup_insert_eq. by eexists. }
    exists dh'. split; [|split].
    + cbn [for_local]. unfold bind at 1, mark_to_market at 1.
      unfold bind, get, lift, ret. rewrite (getitem_Some _ _ _ Hp).
      fold value. rewrite (getitem_Some _ _ _ Hread). exact Hrun.
    + intros k Hk. apply Hkeys. unfold dh1.
      apply lookup_insert_is_Some'. right.
      apply lookup_insert_is_Some'. by right.
    + intros k Hk Hkt. apply not_elem_of_cons in Hk as [Hks Hk].
      rewrite (Hframe _ Hk Hkt). unfold dh1.
      rewrite lookup_insert_ne by congruence.
      by apply lookup_insert_ne.
Qed.

(** A bar snapshot on a portfolio whose symbols have positions and whose
    holdings have cash and commission. *)
Lemma update_timeindex_run (bars : DataHandler.t) (event : Event)
    (self : NaivePortfolio) (first : string) (rest : list string)
    (cash commission : Qc) :
  symbol_list self = first :: rest →
  (∀ s, s ∈ symbol_list self → is_Some (current_positions self !! s)) →
  current_holdings self !! "cash" = Some cash →
  current_holdings self !! "commission" = Some commission →
  let latest := DataHandler.get_latest_bar_datetime bars first in
  ∃ (dp : gmap string Z) (dh : gmap string Qc),
    update_timeindex bars event self =
      (Ok tt,
       set_all_holdings (all_holdings self ++ [dh])
         (set_all_positions (all_positions self ++ [dp]) self)) ∧
    (∀ s, s ∈ symbol_list self → dp !! s = current_positions self !! s) ∧
    ("datetime" ∉ symbol_list self → dp !! "datetime" = Some latest) ∧
    ("datetime" ∉ symbol_list self → dh !! "datetime" = Some (Qz latest)) ∧
    ("commission" ∉ symbol_list self → dh !! "commission" = Some commission) ∧
    is_Some (dh !! "datetime") ∧
    is_Some (dh !! "total").
Proof.
  intros Hsymbols Hknown Hcash Hcommission latest.
  unfold update_timeindex. unfold bind at 1, get at 1.
  rewrite Hsymbols in Hknown |- *.
  unfold bind at 1, lift at 1.
  set (dp0 := <["datetime" := _]> (dict _)).
  destruct (copy_positions_run (first :: rest) self Hknown dp0)
    as (dp & Hdp & Hin & Hout).
  unfold bind at 1. rewrite Hdp.
  unfold bind at 1, get at 1. unfold bind at 1, modify at 1.
  set (self1 := set_all_positions _ self).
  unfold bind at 1, get at 1.
  change (current_holdings self1) with (current_holdings self).
  unfold bind at 1, lift at 1. rewrite (getitem_Some _ _ _ Hcash).
  unfold bind at 1, lift at 1. rewrite (getitem_Some _ _ _ Hcommission).
  unfold bind at 1, lift at 1.
  set (dh0 := <["total" := cash]> _).
  destruct (mark_to_market_returns bars (first :: rest) self1 Hknown dh0)
    as (dh & Hdh & Hkeys & Hframe).
  { unfold dh0. rewrite lookup_insert_eq. by eexists. }
  unfold bind at 1. rewrite Hdh.
  unfold bind at 1, get at 1. unfold modify.
  exists dp, dh. split; [reflexivity|].
  split; [exact Hin|]. split; [|split; [|split; [|split]]].
  - intros Hd. rewrite (Hout _ Hd). unfold dp0. apply lookup_insert_eq.
  - intros Hd. rewrite (Hframe _ Hd) by discriminate. unfold dh0.
    do 3 (rewrite lookup_insert_ne by discriminate). apply lookup_insert_eq.
  - intros Hc. rewrite (Hframe _ Hc) by discriminate. unfold dh0.
    rewrite lookup_insert_ne by discriminate. apply lookup_insert_eq.
  - apply Hkeys. unfold dh0.
    do 3 (apply lookup_insert_is_Some'; right).
    apply lookup_insert_is_Some'. by left.
  - apply Hkeys. unfold dh0. apply lookup_insert_is_Some'. by left.
Qed.

(** X14. With an empty symbol list a bar snapshot raises [IndexError]
    and leaves the portfolio as it was: no record is appended. *)
Theorem update_timeindex_empty_symbols (bars : DataHandler.t) (event : Event)
    (self : NaivePortfolio) :
  symbol_list self = [] →
  update_timeindex bars event self = (Raise IndexError, self).
Proof.
  intros Hempty. unfold update_timeindex.
  unfold bind at 1, get at 1. rewrite Hempty. reflexivity.
Qed.

(** X15. On complete ledgers with at least one symbol a bar snapshot
    returns and appends exactly one record to each history, so that the
    two histories keep the same length; the position record holds the
    current position of every symbol. *)
Theorem update_timeindex_appends_a_pair (bars : DataHandler.t)
    (event : Event) (self : NaivePortfolio) :
  well_formed self →
  symbol_list self ≠ [] →
  ∃ (self' : NaivePortfolio) (dp : gmap string Z) (dh : gmap string Qc),
    update_timeindex bars event self = (Ok tt, self') ∧
    all_positions self' = (all_positions self ++ [dp])%list ∧
    all_holdings self' = (all_holdings self ++ [dh])%list ∧
    (∀ s, s ∈ symbol_list self → dp !! s = current_positions self !! s) ∧
    (length (all_positions self) = length (all_holdings self) →
     length (all_positions self') = length (all_holdings self')).
Proof.
  intros [Hpos Hhold] Hne.
  destruct (symbol_list self) as [|first rest] eqn:Hsymbols; [done|].
  destruct (Hhold "cash") as [cash Hcash].
  { apply elem_of_app. right. unfold ledger_keys. set_solver. }
  destruct (Hhold "commission") as [commission Hcommission].
  { apply elem_of_app. right. unfold ledger_keys. set_solver. }
  destruct (update_timeindex_run bars event self first rest cash commission
              Hsymbols) as (dp & dh & Hrun & Hin & _); try assumption.
  { by rewrite Hsymbols. }
  eexists _, dp, dh. split; [exact Hrun|].
  cbn [all_positions all_holdings set_all_positions set_all_holdings].
  split; [reflexivity|]. split; [reflexivity|]. split.
  - intros s Hs. apply Hin. by rewrite Hsymbols.
  - intros Hlen. rewrite !length_app, Hlen. reflexivity.
Qed.

(** X16. The two records of a bar snapshot carry the same timestamp, the
    datetime of the latest bar of the first symbol, provided no symbol is
    called ["datetime"]. *)
Theorem update_timeindex_stamps_both_records (bars : DataHandler.t)
    (event : Event) (self : NaivePortfolio) (first : string)
    (rest : list string) :
  well_formed self →
  symbol_list self = first :: rest →
  "datetime" ∉ symbol_list self →
  ∃ (self' : NaivePortfolio) (dp : gmap string Z) (dh : gmap string Qc),
    update_timeindex bars event self = (Ok tt, self') ∧
    last (all_positions self') = Some dp ∧
    last (all_holdings self') = Some dh ∧
    dp !! "datetime"
      = Some (DataHandler.get_latest_bar_datetime bars first) ∧
    dh !! "datetime"
      = Some (Qz (DataHandler.get_latest_bar_datetime bars first)).
Proof.
  intros [Hpos Hhold] Hsymbols Hdate.
  destruct (Hhold "cash") as [cash Hcash].
  { apply elem_of_app. right. unfold ledger_keys. set_solver. }
  destruct (Hhold "commission") as [commission Hcommission].
  { apply elem_of_app. right. unfold ledger_keys. set_solver. }
  destruct (update_timeindex_run bars event self first rest cash commission
              Hsymbols Hpos Hcash Hcommission)
    as (dp & dh & Hrun & _ & Hdp & Hdh & _).
  eexists _, dp, dh. split; [exact Hrun|].
  cbn [all_positions all_holdings set_all_positions set_all_holdings].
  rewrite !last_snoc. repeat split; auto.
Qed.

(** X17. Whether it returns or raises, a bar snapshot only appends: it
    adds at most one record to the end of the positions history and, only
    after that, at most one to the end of the holdings history, and it
    leaves the records already there and everything else of the portfolio
    as they were. *)
Theorem update_timeindex_appends_only (bars : DataHandler.t) (event : Event)
    (self : NaivePortfolio) :
  ∃ (ps : list (gmap string Z)) (hs : list (gmap string Qc)),
    snd (update_timeindex bars event self)
    = set_all_holdings (all_holdings self ++ hs)
        (set_all_positions (all_positions self ++ ps) self) ∧
    (length hs ≤ length ps ≤ 1)%nat.
Proof.
  unfold update_timeindex. unfold bind at 1, get at 1.
  destruct (symbol_list self) as [|first rest].
  { exists [], []. split; [symmetry; apply set_histories_same|cbn; lia]. }
  unfold bind at 1, lift at 1.
  set (dp0 := <["datetime" := _]> (dict _)).
  unfold bind at 1.
  pose proof (copy_positions_reads (first :: rest) self dp0) as Hreads.
  destruct (for_local (first :: rest) dp0 copy_position self)
    as [[dp|e] self0]; cbn [snd] in Hreads; subst self0;
    [|exists [], []; split; [symmetry; apply set_histories_same|cbn; lia]].
  unfold bind at 1, get at 1. unfold bind at 1, modify at 1.
  set (self1 := set_all_positions _ self).
  assert (Hpartial : ∃ (ps : list (gmap string Z)) (hs : list (gmap string Qc)),
            self1 = set_all_holdings (all_holdings self ++ hs)
                      (set_all_positions (all_positions self ++ ps) self) ∧
            (length hs ≤ length ps ≤ 1)%nat).
  { exists [dp], []. split; [symmetry; apply set_positions_history_only|cbn; lia]. }
  unfold bind at 1, get at 1. unfold getitem.
  unfold bind at 1, lift at 1.
  destruct (current_holdings self1 !! "cash") as [cash|]; [|exact Hpartial].
  unfold bind at 1, lift at 1.
  destruct (current_holdings self1 !! "commission") as [commission|];
    [|exact Hpartial].
  unfold bind at 1, lift at 1.
  set (dh0 := <["total" := cash]> _).
  unfold bind at 1.
  pose proof (mark_to_market_reads bars (first :: rest) self1 dh0) as Hreads.
  destruct (for_local (first :: rest) dh0 (mark_to_market bars) self1)
    as [[dh|e] self2]; cbn [snd] in Hreads; subst self2; [|exact Hpartial].
  unfold bind at 1, get at 1. unfold modify. cbn [snd].
  exists [dp], [dh]. split; [reflexivity|cbn; lia].
Qed.

End SnapshotEffects.

Lemma update_timeindex_empty_symbols_witness :
  symbol_list portfolio_empty = [] ∧
  update_timeindex (bars_X 55) (OtherEv "MARKET") portfolio_empty
  = (Raise IndexError, portfolio_empty).
Proof.
  assert (H : symbol_list portfolio_empty = []) by reflexivity.
  split; [exact H|].
  exact (update_timeindex_empty_symbols (bars_X 55) (OtherEv "MARKET")
           portfolio_empty H).
Defined.

Lemma portfolio_X_long_well_formed : well_formed portfolio_X_long.
Proof. apply update_fill_well_formed, init_well_formed. Qed.

Lemma update_timeindex_appends_a_pair_witness :
  well_formed portfolio_X_long ∧
  symbol_list portfolio_X_long ≠ [] ∧
  ∃ (self' : NaivePortfolio) (dp : gmap string Z) (dh : gmap string Qc),
    update_timeindex (bars_X 55) (OtherEv "MARKET") portfolio_X_long
      = (Ok tt, self') ∧
    all_positions self' = (all_positions portfolio_X_long ++ [dp])%list ∧
    all_holdings self' = (all_holdings portfolio_X_long ++ [dh])%list ∧
    dp !! "X" = Some 10.
Proof.
  assert (Hne : symbol_list portfolio_X_long ≠ []) by (vm_compute; discriminate).
  split; [exact portfolio_X_long_well_formed|]. split; [exact Hne|].
  destruct (update_timeindex_appends_a_pair (bars_X 55) (OtherEv "MARKET")
              portfolio_X_long portfolio_X_long_well_formed Hne)
    as (self' & dp & dh & Hrun & Hps & Hhs & Hdp & _).
  exists self', dp, dh. split; [exact Hrun|].
  split; [exact Hps|]. split; [exact Hhs|].
  rewrite (Hdp "X"); [vm_compute; reflexivity|].
  change (symbol_list portfolio_X_long) with ["X"]. apply list_elem_of_here.
Defined.

Lemma update_timeindex_stamps_both_records_witness :
  well_formed portfolio_X_long ∧
  symbol_list portfolio_X_long = ["X"] ∧
  ("datetime" ∉ symbol_list portfolio_X_long) ∧
  ∃ (self' : NaivePortfolio) (dp : gmap string Z) (dh : gmap string Qc),
    update_timeindex (bars_X 55) (OtherEv "MARKET") portfolio_X_long
      = (Ok tt, self') ∧
    last (all_positions self') = Some dp ∧
    last (all_holdings self') = Some dh ∧
    dp !! "datetime" = Some 0 ∧
    dh !! "datetime" = Some (Qz 0).
Proof.
  assert (Hsymbols : symbol_list portfolio_X_long = ["X"]) by reflexivity.
  assert (Hdate : "datetime" ∉ symbol_list portfolio_X_long).
  { rewrite Hsymbols. intros Hin.
    apply list_elem_of_singleton in Hin. discriminate Hin. }
  split; [exact portfolio_X_long_well_formed|].
  split; [exact Hsymbols|]. split; [exact Hdate|].
  exact (update_timeindex_stamps_both_records (bars_X 55) (OtherEv "MARKET")
           portfolio_X_long "X" [] portfolio_X_long_well_formed Hsymbols Hdate).
Defined.

(** ** The constructor *)

Section Construction.
Context {C : Collaborators}.

Lemma dict_constant_fold {V : Type} (v : V) (symbols : list string)
    (s : string) :
  ∀ d : gmap string V,
    d !! s = Some v ∨ s ∈ symbols →
    fold_left (λ d kv, <[kv.1 := kv.2]> d) (map (λ s, (s, v)) symbols) d !! s
    = Some v.
Proof.
  induction symbols as [|s' symbols IH]; intros d Hs; cbn [map fold_left].
  - destruct Hs as [Hs|Hs]; [exact Hs|]. by apply elem_of_nil in Hs.
  - apply IH. cbn [fst snd].
    destruct (decide (s' = s)) as [->|Hne].
    + left. apply lookup_insert_eq.
    + destruct Hs as [Hs|Hs].
      * left. by rewrite lookup_insert_ne.
      * apply elem_of_cons in Hs as [->|Hs]; [done|by right].
Qed.

Lemma dict_constant_value {V : Type} (v : V) (symbols : list string)
    (s : string) :
  s ∈ symbols → dict (map (λ s, (s, v)) symbols) !! s = Some v.
Proof. intros Hs. unfold dict. apply dict_constant_fold. by right. Qed.

(** X18. A new portfolio is flat and fully in cash: every symbol has the
    position 0, the cash and the total of the current holdings are the
    initial capital, the commission is 0, every symbol that is not called
    like a ledger key has the holdings value 0, and the order registry,
    the fill log and the event queue handed in are untouched. *)
Theorem init_ledgers (bars : DataHandler.t) (queue : list (option Order))
    (start : Z) (capital : Qc) :
  let self := __init__ bars queue start capital in
  symbol_list self = DataHandler.symbol_list bars ∧
  (∀ s, s ∈ DataHandler.symbol_list bars →
        current_positions self !! s = Some 0) ∧
  current_holdings self !! "cash" = Some capital ∧
  current_holdings self !! "total" = Some capital ∧
  current_holdings self !! "commission" = Some 0%Qc ∧
  (∀ s, s ∈ DataHandler.symbol_list bars → s ∉ ledger_keys →
        current_holdings self !! s = Some 0%Qc) ∧
  all_orders self = ∅ ∧
  all_fills self = [] ∧
  events self = queue.
Proof.
  cbv zeta. unfold __init__, construct_current_holdings.
  cbn [symbol_list current_positions current_holdings all_orders all_fills
       events].
  split; [reflexivity|]. split; [|split; [|split; [|split; [|split]]]].
  - intros s Hs. by apply dict_constant_value.
  - rewrite lookup_insert_ne by discriminate.
    rewrite lookup_insert_ne by discriminate. apply lookup_insert_eq.
  - apply lookup_insert_eq.
  - rewrite lookup_insert_ne by discriminate. apply lookup_insert_eq.
  - intros s Hs Hkey. unfold ledger_keys in Hkey.
    assert (s ≠ "cash") by set_solver.
    assert (s ≠ "commission") by set_solver.
    assert (s ≠ "total") by set_solver.
    do 3 (rewrite lookup_insert_ne by congruence).
    by apply dict_constant_value.
  - by repeat split.
Qed.

(** X19. Each history of a new portfolio holds one seed record: the one
    of the positions has the start date as its timestamp, the one of the
    holdings has the start date as its timestamp, cash and total equal to
    the initial capital and the commission 0, whatever the symbols are
    called.  The portfolio starts with complete ledgers, with a total
    equal to the cash, and with timestamped holdings records. *)
Theorem init_seed_records (bars : DataHandler.t)
    (queue : list (option Order)) (start : Z) (capital : Qc) :
  let self := __init__ bars queue start capital in
  (∃ dp dh,
     all_positions self = [dp] ∧
     all_holdings self = [dh] ∧
     dp !! "datetime" = Some start ∧
     dh !! "datetime" = Some (Qz start) ∧
     dh !! "cash" = Some capital ∧
     dh !! "total" = Some capital ∧
     dh !! "commission" = Some 0%Qc) ∧
  well_formed self ∧
  cash_is_total self ∧
  snapshots_keyed self.
Proof.
  cbv zeta. split; [|split; [|split]].
  - unfold __init__, construct_all_positions, construct_all_holdings.
    cbn [all_positions all_holdings]. eexists _, _.
    split; [reflexivity|]. split; [reflexivity|].
    split; [apply lookup_insert_eq|].
    split; [by simplify_map_eq|].
    split; [by simplify_map_eq|].
    split; by simplify_map_eq.
  - apply init_well_formed.
  - unfold cash_is_total, __init__, construct_current_holdings.
    cbn [current_holdings]. by simplify_map_eq.
  - unfold snapshots_keyed, __init__, construct_all_holdings.
    cbn [all_holdings]. split; [discriminate|].
    constructor; [|constructor].
    split; simplify_map_eq; by eexists.
Qed.

End Construction.

(** ** More on reporting *)

Section ReportingEffects.
Context {C : Collaborators}.

(** When the second loop returns, the record it built has every entry the
    record had before the loop. *)
Lemma mark_to_market_keeps_keys (bars : DataHandler.t)
    (symbols : list string) :
  ∀ (dh dh' : gmap string Qc) (self self' : NaivePortfolio),
    for_local symbols dh (mark_to_market bars) self = (Ok dh', self') →
    ∀ k, is_Some (dh !! k) → is_Some (dh' !! k).
Proof.
  induction symbols as [|s symbols IH]; intros dh dh' self self' Hrun k Hk.
  - cbn in Hrun. injection Hrun as <- _. exact Hk.
  - cbn [for_local] in Hrun. unfold bind at 1, mark_to_market at 1 in Hrun.
    unfold bind, get, lift, ret, getitem in Hrun.
    destruct (current_positions self !! s) as [p|]; [|discriminate Hrun].
    destruct (<[s := _]> dh !! "total") as [total|]; [|discriminate Hrun].
    eapply IH; [exact Hrun|].
    apply lookup_insert_is_Some'. right.
    apply lookup_insert_is_Some'. by right.
Qed.

(** X20. A bar snapshot keeps the holdings history fit for reporting,
    whether it returns or raises: the history stays non-empty, and every
    record in it, the appended one included, has a timestamp and a
    total. *)
Theorem update_timeindex_keeps_snapshots_keyed (bars : DataHandler.t)
    (event : Event) (self : NaivePortfolio) :
  snapshots_keyed self →
  snapshots_keyed (snd (update_timeindex bars event self)).
Proof.
  intros Hinv. unfold update_timeindex. unfold bind at 1, get at 1.
  destruct (symbol_list self) as [|first rest]; [exact Hinv|].
  unfold bind at 1, lift at 1.
  set (dp0 := <["datetime" := _]> (dict _)).
  unfold bind at 1.
  pose proof (copy_positions_reads (first :: rest) self dp0) as Hreads.
  destruct (for_local (first :: rest) dp0 copy_position self)
    as [[dp|e] self0]; cbn [snd] in Hreads; subst self0; [|exact Hinv].
  unfold bind at 1, get at 1. unfold bind at 1, modify at 1.
  set (self1 := set_all_positions _ self).
  assert (Hinv1 : snapshots_keyed self1) by exact Hinv.
  unfold bind at 1, get at 1. unfold getitem.
  unfold bind at 1, lift at 1.
  destruct (current_holdings self1 !! "cash") as [cash|]; [|exact Hinv1].
  unfold bind at 1, lift at 1.
  destruct (current_holdings self1 !! "commission") as [commission|];
    [|exact Hinv1].
  unfold bind at 1, lift at 1.
  set (dh0 := <["total" := cash]> _).
  unfold bind at 1.
  pose proof (mark_to_market_reads bars (first :: rest) self1 dh0) as Hreads.
  destruct (for_local (first :: rest) dh0 (mark_to_market bars) self1)
    as [[dh|e] self2] eqn:Hloop; cbn [snd] in Hreads; subst self2;
    [|exact Hinv1].
  unfold bind at 1, get at 1. unfold modify. cbn [snd].
  destruct Hinv as [Hne Hall].
  split; cbn [all_holdings set_all_holdings set_all_positions].
  - intros Hnil. by apply app_eq_nil in Hnil as [? _].
  - apply Forall_app. split; [exact Hall|].
    constructor; [|constructor].
    split; apply (mark_to_market_keeps_keys _ _ _ _ _ _ Hloop); unfold dh0.
    + do 3 (apply lookup_insert_is_Some'; right).
      apply lookup_insert_is_Some'. by left.
    + apply lookup_insert_is_Some'. by left.
Qed.

Lemma pct_change_from_length (xs : list (option Qc)) :
  ∀ prev, length (pct_change_from prev xs) = length xs.
Proof.
  induction xs as [|x xs IH]; intros prev; [reflexivity|].
  cbn. f_equal. apply IH.
Qed.

Lemma pct_change_length (xs : list (option Qc)) :
  length (pct_change xs) = length xs.
Proof.
  destruct xs as [|x xs]; [reflexivity|].
  cbn. f_equal. apply pct_change_from_length.
Qed.

Lemma cumprod_from_length (xs : list (option Qc)) :
  ∀ acc, length (cumprod_from acc xs) = length xs.
Proof.
  induction xs as [|[x|] xs IH]; intros acc; [reflexivity| |];
    cbn; f_equal; apply IH.
Qed.

(** X21. On a holdings history that is non-empty and whose records have
    a timestamp and a total, as the constructor and the bar snapshots
    leave it, [create_equity_curve_dataframe] returns; the table it stores
    has one return and one equity value per holdings record, the first
    return being without value, and nothing else of the portfolio is
    changed. *)
Theorem create_equity_curve_dataframe_returns (self : NaivePortfolio) :
  snapshots_keyed self →
  ∃ curve : EquityCurve,
    create_equity_curve_dataframe self
      = (Ok tt, set_equity_curve (Some curve) self) ∧
    length (ec_returns curve) = length (all_holdings self) ∧
    length (ec_equity_curve curve) = length (all_holdings self) ∧
    ec_returns curve !! 0%nat = Some None ∧
    ec_drawdown curve = None.
Proof.
  intros [Hne Hall].
  destruct (all_holdings self) as [|row rows] eqn:Hrows; [done|].
  apply Forall_cons in Hall as [[Hdate Htotal] _].
  unfold create_equity_curve_dataframe.
  unfold bind at 1, get at 1. rewrite Hrows.
  unfold bind at 1, lift at 1, column at 1. cbn [existsb].
  rewrite (bool_decide_eq_true_2 _ Hdate). cbn [orb].
  unfold bind at 1, lift at 1, column at 1. cbn [map existsb].
  assert (Hkept : is_Some (delete "datetime" row !! "total")).
  { by rewrite lookup_delete_ne by discriminate. }
  rewrite (bool_decide_eq_true_2 _ Hkept). cbn [orb].
  unfold modify. eexists. split; [reflexivity|].
  cbn [ec_returns ec_equity_curve ec_drawdown].
  split; [|split; [|split; reflexivity]].
  - rewrite pct_change_length. cbn. by rewrite !length_map.
  - unfold cumprod, one_plus.
    rewrite cumprod_from_length, length_map, pct_change_length.
    cbn. by rewrite !length_map.
Qed.

(** The running product of the growth factors telescopes. *)
Lemma growth_telescopes (totals : list Qc) :
  ∀ (prev acc : Qc) (t : nat) (total : Qc),
    prev ≠ 0%Qc →
    Forall (λ x, x ≠ 0%Qc) totals →
    totals !! t = Some total →
    fold_left Qcmult
      (map (λ r, (1 + r)%Qc) (take (S t) (simple_returns prev totals))) acc
    = (acc * total / prev)%Qc.
Proof.
  induction totals as [|x totals IH]; intros prev acc t total Hprev Hnz Ht.
  - destruct t; discriminate Ht.
  - apply Forall_cons in Hnz as [Hx Hnz].
    destruct t as [|t].
    + cbn in Ht. injection Ht as <-. cbn. rewrite firstn_O. cbn.
      field. exact Hprev.
    + cbn in Ht. cbn [simple_returns].
      change (take (S (S t)) (?r :: ?rs)) with (r :: take (S t) rs).
      cbn [map fold_left].
      rewrite (IH x _ t total Hx Hnz Ht). field. by split.
Qed.

(** X22. Over snapshots whose totals are present and not zero, the equity
    curve at every index after the first is the total of that snapshot
    divided by the first total: the product of the growth factors
    telescopes. *)
Theorem equity_curve_is_growth_of_total (self : NaivePortfolio)
    (first : Qc) (totals : list Qc) :
  Forall2 (λ row total, is_Some (row !! "datetime") ∧ row !! "total" = Some total)
    (all_holdings self) (first :: totals) →
  Forall (λ x, x ≠ 0%Qc) (first :: totals) →
  ∃ self' : NaivePortfolio,
    create_equity_curve_dataframe self = (Ok tt, self') ∧
    ∀ (t : nat) (total : Qc),
      totals !! t = Some total →
      equity_at self' (S t) = Some (Some (total / first)%Qc).
Proof.
  intros Hrows Hnz.
  destruct (snapshot_columns _ _ Hrows) as [[index Hindex] Htotal]; [done|].
  destruct (equity_columns first totals Hnz) as (Hreturns & _ & Hlater).
  unfold create_equity_curve_dataframe.
  unfold bind at 1, get at 1.
  unfold bind at 1, lift at 1. rewrite Hindex.
  unfold bind at 1, lift at 1. rewrite Htotal.
  unfold modify. eexists. split; [reflexivity|].
  intros t total Ht. unfold equity_at.
  cbn [equity_curve set_equity_curve ec_equity_curve].
  rewrite Hlater by (eapply lookup_lt_Some, Ht).
  do 2 f_equal. rewrite Hreturns. unfold product_of_defined.
  change (take (S (S t)) (None :: ?l)) with (None :: take (S t) l).
  change (defined_growth (None :: ?l)) with (defined_growth l).
  rewrite firstn_map, defined_growth_defined.
  apply Forall_cons in Hnz as [Hfirst Hnz].
  rewrite (growth_telescopes totals first 1%Qc t total Hfirst Hnz Ht).
  field. exact Hfirst.
Qed.

End ReportingEffects.

(** ** The summary *)

Section Summary.
Context {C : Collaborators}.

Lemma output_summary_stats_before_equity_curve_fails (self : NaivePortfolio) :
  equity_curve self = None →
  fst (output_summary_stats self) = Raise (AttributeError "equity_curve").
Proof.
  intros Hnone. unfold output_summary_stats.
  unfold bind at 1, get at 1. rewrite Hnone. reflexivity.
Qed.

(** X23. Before [create_equity_curve_dataframe] has run, the portfolio has
    no equity curve and [output_summary_stats] raises [AttributeError]
    for it, leaving the portfolio as it was. *)
Theorem output_summary_stats_before_equity_curve (self : NaivePortfolio) :
  equity_curve self = None →
  output_summary_stats self = (Raise (AttributeError "equity_curve"), self).
Proof.
  intros Hnone. unfold output_summary_stats.
  unfold bind at 1, get at 1. rewrite Hnone. reflexivity.
Qed.

(** The summary on a portfolio that has an equity curve with a last value
    and an order table with a first row. *)
Lemma output_summary_stats_run (self : NaivePortfolio) (curve : EquityCurve)
    (last_value : option Qc) (row : Order) (rows : list Order) :
  equity_curve self = Some curve →
  last (ec_equity_curve curve) = Some last_value →
  order_history self = Some (row :: rows) →
  ∃ stats : SummaryStats,
    fst (output_summary_stats self) = Ok stats ∧
    stat_trade_number stats = S (length rows) ∧
    stat_sharpe_ratio stats = create_sharpe_ratio (ec_returns curve) (252 * 6).
Proof.
  intros Hcurve Hlast Hrows. unfold output_summary_stats.
  unfold bind at 1, get at 1. rewrite Hcurve.
  unfold bind at 1, lift at 1.
  unfold bind at 1, lift at 1. rewrite Hlast.
  destruct (create_drawdowns (ec_equity_curve curve)) as [[drawdown max_dd] dd].
  unfold bind at 1, modify at 1.
  unfold bind at 1, get at 1. cbn [order_history set_equity_curve].
  rewrite Hrows.
  unfold bind, lift, ret. cbn [profit_column length Nat.eqb fst].
  eexists. split; [reflexivity|]. split; reflexivity.
Qed.

(** X24. [output_summary_stats] returns statistics exactly when the
    portfolio has an equity curve with at least one row and an order
    table with at least one row; the trade number it then reports is the
    number of rows of the order table. *)
Theorem output_summary_stats_returns_iff (self : NaivePortfolio) :
  (∀ stats : SummaryStats,
     fst (output_summary_stats self) = Ok stats →
     ∃ (curve : EquityCurve) (rows : list Order),
       equity_curve self = Some curve ∧ ec_equity_curve curve ≠ [] ∧
       order_history self = Some rows ∧ rows ≠ [] ∧
       stat_trade_number stats = length rows) ∧
  (∀ (curve : EquityCurve) (rows : list Order),
     equity_curve self = Some curve → ec_equity_curve curve ≠ [] →
     order_history self = Some rows → rows ≠ [] →
     ∃ stats : SummaryStats, fst (output_summary_stats self) = Ok stats).
Proof.
  split.
  - intros stats Hok.
    destruct (equity_curve self) as [curve|] eqn:Hcurve.
    2:{ rewrite (output_summary_stats_before_equity_curve_fails self Hcurve)
          in Hok. discriminate Hok. }
    destruct (last (ec_equity_curve curve)) as [last_value|] eqn:Hlast.
    2:{ unfold output_summary_stats in Hok.
        unfold bind at 1, get at 1 in Hok. rewrite Hcurve in Hok.
        unfold bind at 1, lift at 1 in Hok.
        unfold bind at 1, lift at 1 in Hok. rewrite Hlast in Hok.
        discriminate Hok. }
    destruct (order_history self) as [[|row rows]|] eqn:Hrows.
    + exfalso. by apply (output_summary_stats_needs_orders self Hrows stats).
    + destruct (output_summary_stats_run self curve last_value row rows
                  Hcurve Hlast Hrows) as (stats' & Hok' & Hn & _).
      rewrite Hok in Hok'. injection Hok' as <-.
      exists curve, (row :: rows).
      split; [reflexivity|]. split.
      { intros Hnil. rewrite Hnil in Hlast. discriminate Hlast. }
      split; [reflexivity|]. split; [discriminate|exact Hn].
    + exfalso. unfold output_summary_stats in Hok.
      unfold bind at 1, get at 1 in Hok. rewrite Hcurve in Hok.
      unfold bind at 1, lift at 1 in Hok.
      unfold bind at 1, lift at 1 in Hok. rewrite Hlast in Hok.
      destruct (create_drawdowns (ec_equity_curve curve))
        as [[drawdown max_dd] dd].
      unfold bind at 1, modify at 1 in Hok.
      unfold bind at 1, get at 1 in Hok.
      cbn [order_history set_equity_curve] in Hok. rewrite Hrows in Hok.
      discriminate Hok.
  - intros curve rows Hcurve Hne Hrows Hrne.
    apply last_is_Some in Hne as [last_value Hlast].
    destruct rows as [|row rows]; [done|].
    destruct (output_summary_stats_run self curve last_value row rows
                Hcurve Hlast Hrows) as (stats & Hok & _).
    by exists stats.
Qed.

(** X25. [output_summary_stats] never raises [ZeroDivisionError]: an
    order table without rows makes it raise before it reaches the
    division by the trade count, and with a row the count is not zero. *)
Theorem output_summary_stats_never_divides_by_zero (self : NaivePortfolio) :
  fst (output_summary_stats self) ≠ Raise ZeroDivisionError.
Proof.
  destruct (equity_curve self) as [curve|] eqn:Hcurve.
  2:{ rewrite (output_summary_stats_before_equity_curve_fails self Hcurve).
      discriminate. }
  unfold output_summary_stats.
  unfold bind at 1, get at 1. rewrite Hcurve.
  unfold bind at 1, lift at 1.
  unfold bind at 1, lift at 1.
  destruct (last (ec_equity_curve curve)) as [last_value|]; [|discriminate].
  destruct (create_drawdowns (ec_equity_curve curve)) as [[drawdown max_dd] dd].
  unfold bind at 1, modify at 1.
  unfold bind at 1, get at 1. cbn [order_history set_equity_curve].
  destruct (order_history self) as [[|row rows]|];
    unfold bind, lift, ret; cbn [profit_column length Nat.eqb fst];
    discriminate.
Qed.

(** X26. [create_order_history_dataframe] always returns; the order table
    it stores has one row per identifier of the order registry, and its
    rows are the orders the registry holds. *)
Theorem create_order_history_dataframe_rows (self : NaivePortfolio) :
  ∃ rows : list Order,
    create_order_history_dataframe self
      = (Ok tt, set_order_history (Some rows) self) ∧
    length rows = size (all_orders self) ∧
    (∀ order : Order,
       order ∈ rows ↔ ∃ id : Z, all_orders self !! id = Some order).
Proof.
  exists (map snd (map_to_list (all_orders self))).
  split; [reflexivity|]. split.
  - rewrite length_map. apply length_map_to_list.
  - intros order. rewrite list_elem_of_In, in_map_iff. split.
    + intros ([id order'] & Heq & Hin). cbn in Heq. subst order'.
      exists id. by apply elem_of_map_to_list, list_elem_of_In.
    + intros [id Hid]. exists (id, order). split; [reflexivity|].
      by apply list_elem_of_In, elem_of_map_to_list.
Qed.

End Summary.

Lemma scenario_A_snapshots_keyed : snapshots_keyed (snd scenario_A_bar).
Proof.
  unfold snapshots_keyed.
  set (rows := all_holdings (snd scenario_A_bar)).
  vm_compute in rows. subst rows.
  split; [discriminate|].
  repeat constructor; vm_compute; eexists; reflexivity.
Qed.

Lemma portfolio_X_snapshots_keyed : snapshots_keyed portfolio_X.
Proof.
  unfold snapshots_keyed.
  set (rows := all_holdings portfolio_X).
  vm_compute in rows. subst rows.
  split; [discriminate|].
  repeat constructor; vm_compute; eexists; reflexivity.
Qed.

Lemma update_timeindex_keeps_snapshots_keyed_witness :
  snapshots_keyed portfolio_X ∧
  snapshots_keyed
    (snd (update_timeindex (bars_X 55) (OtherEv "MARKET") portfolio_X)).
Proof.
  split; [exact portfolio_X_snapshots_keyed|].
  exact (update_timeindex_keeps_snapshots_keyed (bars_X 55) (OtherEv "MARKET")
           portfolio_X portfolio_X_snapshots_keyed).
Defined.

Lemma create_equity_curve_dataframe_returns_witness :
  let self := snd scenario_A_bar in
  snapshots_keyed self ∧
  ∃ curve : EquityCurve,
    create_equity_curve_dataframe self
      = (Ok tt, set_equity_curve (Some curve) self) ∧
    length (ec_returns curve) = 2%nat ∧
    length (ec_equity_curve curve) = 2%nat.
Proof.
  intros self. split; [exact scenario_A_snapshots_keyed|].
  destruct (create_equity_curve_dataframe_returns self
              scenario_A_snapshots_keyed)
    as (curve & Hrun & Hreturns & Hcurve & _).
  exists curve. split; [exact Hrun|].
  split; [exact Hreturns|exact Hcurve].
Defined.

Lemma equity_curve_is_growth_of_total_witness :
  let self := snd scenario_A_bar in
  Forall (λ x, x ≠ 0%Qc) [Qz 100000; Qz 100049] ∧
  ∃ self' : NaivePortfolio,
    create_equity_curve_dataframe self = (Ok tt, self') ∧
    equity_at self' 1 = Some (Some (Qz 100049 / Qz 100000)%Qc).
Proof.
  intros self.
  assert (Hnz : Forall (λ x, x ≠ 0%Qc) [Qz 100000; Qz 100049]).
  { repeat constructor; intros H; vm_compute in H; discriminate H. }
  assert (Hrows : Forall2 (λ (row : gmap string Qc) total,
                     is_Some (row !! "datetime") ∧ row !! "total" = Some total)
                    (all_holdings self) [Qz 100000; Qz 100049]).
  { subst self. set (rows := all_holdings (snd scenario_A_bar)).
    vm_compute in rows. subst rows.
    repeat constructor; vm_compute; try (eexists; reflexivity); reflexivity. }
  split; [exact Hnz|].
  destruct (equity_curve_is_growth_of_total self (Qz 100000) [Qz 100049]
              Hrows Hnz) as (self' & Hrun & Hcurve).
  exists self'. split; [exact Hrun|].
  apply (Hcurve 0%nat). reflexivity.
Defined.

Lemma output_summary_stats_before_equity_curve_witness :
  equity_curve portfolio_X = None ∧
  output_summary_stats portfolio_X
  = (Raise (AttributeError "equity_curve"), portfolio_X).
Proof.
  assert (H : equity_curve portfolio_X = None) by reflexivity.
  split; [exact H|].
  exact (output_summary_stats_before_equity_curve portfolio_X H).
Defined.

(** ** A fill and the snapshot after it *)

Section FillThenSnapshot.
Context {C : Collaborators}.

(** The total and the cash of the holdings record a bar snapshot
    appends. *)
Lemma update_timeindex_latest_total (bars : DataHandler.t) (event : Event)
    (self : NaivePortfolio) (first : string) (rest : list string)
    (cash commission : Qc) :
  symbol_list self = first :: rest →
  (∀ s, s ∈ symbol_list self → is_Some (current_positions self !! s)) →
  current_holdings self !! "cash" = Some cash →
  current_holdings self !! "commission" = Some commission →
  "total" ∉ symbol_list self →
  ∃ (self' : NaivePortfolio) (values : list Qc),
    update_timeindex bars event self = (Ok tt, self') ∧
    Forall2 (λ s v, ∃ p, current_positions self !! s = Some p ∧
               v = (Qz p * DataHandler.get_latest_bar_value bars s "close")%Qc)
      (symbol_list self) values ∧
    latest_snapshot self' "total" = Some (cash + Qc_sum values)%Qc.
Proof.
  intros Hsymbols Hknown Hcash Hcommission Ht.
  unfold update_timeindex. unfold bind at 1, get at 1.
  rewrite Hsymbols in Hknown, Ht |- *.
  unfold bind at 1, lift at 1.
  set (dp0 := <["datetime" := _]> (dict _)).
  destruct (copy_positions_run (first :: rest) self Hknown dp0)
    as (dp & Hdp & _).
  unfold bind at 1. rewrite Hdp.
  unfold bind at 1, get at 1. unfold bind at 1, modify at 1.
  set (self1 := set_all_positions _ self).
  unfold bind at 1, get at 1.
  change (current_holdings self1) with (current_holdings self).
  unfold bind at 1, lift at 1. rewrite (getitem_Some _ _ _ Hcash).
  unfold bind at 1, lift at 1. rewrite (getitem_Some _ _ _ Hcommission).
  unfold bind at 1, lift at 1.
  set (dh0 := <["total" := cash]> _).
  destruct (mark_to_market_run bars (first :: rest) self1 Hknown Ht dh0 cash)
    as (dh & values & Hdh & Hvalues & _ & Hsum & _).
  { unfold dh0. apply lookup_insert_eq. }
  unfold bind at 1. rewrite Hdh.
  unfold bind at 1, get at 1. unfold modify.
  eexists _, values. split; [reflexivity|]. split; [exact Hvalues|].
  unfold latest_snapshot.
  cbn [all_holdings set_all_holdings]. rewrite last_snoc. exact Hsum.
Qed.

(** No event changes the symbol list. *)
Lemma update_fill_symbol_list (bars : DataHandler.t) (event : Event)
    (self : NaivePortfolio) :
  symbol_list (snd (update_fill bars event self)) = symbol_list self.
Proof.
  unfold update_fill.
  destruct (String.eqb (event_type event) "FILL"); [|reflexivity].
  destruct event as [signal|fill|type]; [reflexivity| |reflexivity].
  unfold update_positions_from_fill, update_holdings_from_fill,
    update_holding, update_orders_from_fill, bind, get, lift, modify, getitem.
  repeat match goal with
    | |- context [match ?m !! ?k with _ => _ end] =>
        destruct (m !! k); cbn [snd fst]
    end;
    reflexivity.
Qed.

(** X27. In a portfolio over a single instrument, a fill followed by a
    bar snapshot gives a total that is the cash before the fill, less the
    commission, plus the old position at the close of the snapshot, plus
    the signed quantity of the fill times the move of the close from the
    fill to the snapshot. *)
Theorem fill_then_snapshot_total (bars_fill bars_bar : DataHandler.t)
    (fill : FillEvent.t) (event : Event) (self : NaivePortfolio)
    (position : Z) (value commission cash total : Qc) :
  let s := FillEvent.symbol fill in
  let close_fill := DataHandler.get_latest_bar_value bars_fill s "close" in
  let close_bar := DataHandler.get_latest_bar_value bars_bar s "close" in
  let signed := sign (FillEvent.direction fill) * FillEvent.quantity fill in
  FillEvent.type fill = "FILL" →
  symbol_list self = [s] →
  s ∉ ledger_keys →
  current_positions self !! s = Some position →
  current_holdings self !! s = Some value →
  current_holdings self !! "commission" = Some commission →
  current_holdings self !! "cash" = Some cash →
  current_holdings self !! "total" = Some total →
  ∃ self1 self2 : NaivePortfolio,
    update_fill bars_fill (FillEv fill) self = (Ok tt, self1) ∧
    update_timeindex bars_bar event self1 = (Ok tt, self2) ∧
    latest_snapshot self2 "total"
    = Some (cash - FillEvent.commission fill + Qz position * close_bar
            + Qz signed * (close_bar - close_fill))%Qc.
Proof.
  intros s close_fill close_bar signed Htype Hsymbols Hs Hpos Hv Hk Hc Ht.
  set (cost := (Qz signed * close_fill)%Qc).
  destruct (holdings_entries_apart (current_holdings self) s
              (value + cost)%Qc
              (commission + FillEvent.commission fill)%Qc
              (cash - (cost + FillEvent.commission fill))%Qc
              (total - (cost + FillEvent.commission fill))%Qc Hs)
    as (E1 & E2 & E3 & L1 & L2 & L3 & L4).
  destruct (update_fill_run bars_fill fill self position value commission
              cash total)
    as (self1 & Hrun & Hpos1 & Hhold1 & _); try assumption.
  { exact (eq_trans E1 Hk). }
  { exact (eq_trans E2 Hc). }
  { exact (eq_trans E3 Ht). }
  assert (Hsymbols1 : symbol_list self1 = [s]).
  { pose proof (update_fill_symbol_list bars_fill (FillEv fill) self) as Hsame.
    rewrite Hrun in Hsame. cbn [snd] in Hsame. by rewrite Hsame. }
  assert (Hpos1' : current_positions self1 !! s = Some (position + signed)).
  { rewrite Hpos1. apply lookup_insert_eq. }
  destruct (update_timeindex_latest_total bars_bar event self1 s []
              (cash - (cost + FillEvent.commission fill))%Qc
              (commission + FillEvent.commission fill)%Qc Hsymbols1)
    as (self2 & values & Hbar & Hvalues & Htotal).
  - intros s' Hs'. rewrite Hsymbols1 in Hs'.
    apply list_elem_of_singleton in Hs' as ->. by eexists.
  - rewrite Hhold1. exact L3.
  - rewrite Hhold1. exact L2.
  - rewrite Hsymbols1. intros Hin. apply list_elem_of_singleton in Hin.
    apply Hs. unfold ledger_keys. rewrite <- Hin. set_solver.
  - exists self1, self2. split; [exact Hrun|]. split; [exact Hbar|].
    rewrite Htotal. f_equal.
    rewrite Hsymbols1 in Hvalues.
    apply Forall2_cons_inv_l in Hvalues as (v & vs & (p & Hp & ->) & Hvs & ->).
    apply Forall2_nil_inv_l in Hvs as ->.
    rewrite Hpos1' in Hp. injection Hp as <-.
    rewrite Qc_sum_cons. unfold Qc_sum. cbn [fold_left].
    fold close_bar. unfold cost. rewrite Qz_add. ring.
Qed.

(** A write to the commission that does not lower it, or a write to
    another entry, keeps the commission at or above a bound. *)
Lemma update_holding_commission_grows (key : string) (f : Qc → Qc)
    (bound : Qc) (self : NaivePortfolio) :
  (key = "commission" → ∀ v, (v <= f v)%Qc) →
  (∃ k, current_holdings self !! "commission" = Some k ∧ (bound <= k)%Qc) →
  ∃ k, current_holdings (snd (update_holding key f self)) !! "commission"
       = Some k ∧ (bound <= k)%Qc.
Proof.
  intros Hgrow (k & Hk & Hle).
  unfold update_holding, bind, get, lift, modify, getitem.
  destruct (current_holdings self !! key) as [v|] eqn:Hv; cbn [snd];
    [|by exists k].
  cbn [current_holdings set_current_holdings].
  destruct (decide (key = "commission")) as [->|Hne].
  - exists (f v). rewrite lookup_insert_eq. split; [reflexivity|].
    rewrite Hk in Hv. injection Hv as <-.
    eapply Qcle_trans; [exact Hle|]. by apply Hgrow.
  - exists k. by rewrite lookup_insert_ne.
Qed.

(** X28. The accumulated commission never falls: through any run of
    events handed to [update_fills] whose fills carry a commission that
    is not negative and do not name a ledger key as their symbol, the
    commission of the current holdings ends at or above where it started,
    also when the run raises midway. *)
Theorem update_fills_commission_grows (bars : DataHandler.t)
    (events : list Event) (self : NaivePortfolio) (commission : Qc) :
  (∀ fill, FillEv fill ∈ events →
           (0 <= FillEvent.commission fill)%Qc ∧
           FillEvent.symbol fill ∉ ledger_keys) →
  current_holdings self !! "commission" = Some commission →
  ∃ commission' : Qc,
    current_holdings (snd (update_fills bars events self)) !! "commission"
    = Some commission' ∧
    (commission <= commission')%Qc.
Proof.
  intros Hcom Hstart. unfold update_fills.
  apply (for_each_leaves
           (λ self', ∃ k, current_holdings self' !! "commission" = Some k ∧
                          (commission <= k)%Qc)).
  2:{ exists commission. split; [exact Hstart|apply Qcle_refl]. }
  intros event self0 Hevent Hinv. unfold update_fill.
  destruct (String.eqb (event_type event) "FILL"); [|exact Hinv].
  destruct event as [signal|fill|type]; [exact Hinv| |exact Hinv].
  destruct (Hcom fill Hevent) as [Hnonneg Hsym].
  unfold ledger_keys in Hsym.
  assert (Hne : FillEvent.symbol fill ≠ "commission").
  { intros Heq. apply Hsym. rewrite Heq.
    apply list_elem_of_further, list_elem_of_here. }
  apply bind_keeps.
  { unfold update_positions_from_fill, bind, get, lift, modify, getitem.
    by destruct (current_positions self0 !! FillEvent.symbol fill). }
  intros _ self1 Hinv1. apply bind_keeps.
  { unfold update_holdings_from_fill.
    apply bind_keeps.
    { apply update_holding_commission_grows; [|exact Hinv1]. done. }
    intros _ self2 Hinv2. apply bind_keeps.
    { apply update_holding_commission_grows; [|exact Hinv2].
      intros _ v. rewrite <- (Qcplus_0_r v) at 1.
      apply Qcplus_le_compat; [apply Qcle_refl|exact Hnonneg]. }
    intros _ self3 Hinv3. apply bind_keeps.
    { apply update_holding_commission_grows; [|exact Hinv3]. discriminate. }
    intros _ self4 Hinv4.
    apply update_holding_commission_grows; [|exact Hinv4]. discriminate. }
  intros _ self2 Hinv2. apply bind_keeps; [exact Hinv2|].
  intros _ self3 Hinv3. exact Hinv3.
Qed.

End FillThenSnapshot.

Lemma fill_then_snapshot_total_witness :
  let fill := fill_X "SELL" 4 52 in
  FillEvent.type fill = "FILL" ∧
  symbol_list portfolio_X_long = ["X"] ∧
  current_positions portfolio_X_long !! "X" = Some 10 ∧
  current_holdings portfolio_X_long !! "cash" = Some (Qz 99499) ∧
  ∃ self1 self2 : NaivePortfolio,
    update_fill (bars_X 52) (FillEv fill) portfolio_X_long = (Ok tt, self1) ∧
    update_timeindex (bars_X 55) (OtherEv "MARKET") self1 = (Ok tt, self2) ∧
    latest_snapshot self2 "total"
    = Some (Qz 99499 - Qz 1 + Qz 10 * Qz 55 + Qz (-1 * 4) * (Qz 55 - Qz 52))%Qc.
Proof.
  intros fill.
  assert (Htype : FillEvent.type fill = "FILL") by reflexivity.
  assert (Hsymbols : symbol_list portfolio_X_long = [FillEvent.symbol fill])
    by reflexivity.
  assert (Hpos : current_positions portfolio_X_long !! FillEvent.symbol fill
                 = Some 10) by (vm_compute; reflexivity).
  assert (Hcash : current_holdings portfolio_X_long !! "cash" = Some (Qz 99499))
    by (vm_compute; reflexivity).
  split; [exact Htype|]. split; [exact Hsymbols|].
  split; [exact Hpos|]. split; [exact Hcash|].
  apply (fill_then_snapshot_total (bars_X 52) (bars_X 55) fill
           (OtherEv "MARKET") portfolio_X_long 10 (Qz 500) (Qz 1) (Qz 99499)
           (Qz 99499) Htype Hsymbols ledger_keys_exclude_X Hpos);
    vm_compute; reflexivity.
Defined.

Lemma update_fills_commission_grows_witness :
  let events := [FillEv (fill_X "BUY" 10 50); FillEv (fill_X "SELL" 4 50)] in
  current_holdings portfolio_X !! "commission" = Some 0%Qc ∧
  ∃ commission' : Qc,
    current_holdings (snd (update_fills (bars_X 50) events portfolio_X))
      !! "commission" = Some commission' ∧
    (0 <= commission')%Qc.
Proof.
  intros events.
  assert (Hstart : current_holdings portfolio_X !! "commission" = Some 0%Qc)
    by (vm_compute; reflexivity).
  assert (Hcom : ∀ fill : FillEvent.t,
             FillEv fill ∈ events →
             (0 <= FillEvent.commission fill)%Qc ∧
             FillEvent.symbol fill ∉ ledger_keys).
  { intros fill Hin.
    repeat (apply elem_of_cons in Hin as [Hin|Hin];
            [injection Hin as ->;
             split; [vm_compute; discriminate|exact ledger_keys_exclude_X]|]).
    by apply elem_of_nil in Hin. }
  split; [exact Hstart|].
  exact (update_fills_commission_grows (bars_X 50) events portfolio_X 0%Qc
           Hcom Hstart).
Defined.
